(** * A shallow embedding of the calculator REST backend

    The development follows the two routers of the application,
    [app/api/auth.py] and [app/api/calculations.py], together with the
    configuration of [app/core/config.py].  Each route handler becomes a
    function from the table it queries (and its request parameters) to a
    response and the table as committed.  A raised exception is a value; a
    handler that raises before [db.commit()] leaves the table as it found it. *)

From Stdlib Require Import ZArith List String Ascii Bool Lia QArith Permutation.
Import ListNotations.
Open Scope string_scope.
Open Scope list_scope.
Open Scope Z_scope.

(** ** Python values *)

(** A Python [str] is a sequence of code points; [len] counts them. *)
Definition str := list N.

Definition lit (s : string) : str := map N_of_ascii (list_ascii_of_string s).

Definition len (s : str) : Z := Z.of_nat (List.length s).

Definition str_eqb (a b : str) : bool :=
  if list_eq_dec N.eq_dec a b then true else false.

(** [column == value] in a filter: a NULL column matches nothing. *)
Definition column_is (column : option str) (value : str) : bool :=
  match column with
  | Some v => str_eqb v value
  | None => false
  end.

(** A timezone-aware UTC [datetime], in microseconds since the epoch. *)
Definition datetime := Z.

Definition timedelta_minutes (m : Z) : Z := m * 60000000.
Definition timedelta_hours (h : Z) : Z := timedelta_minutes (h * 60).
Definition timedelta_days (d : Z) : Z := timedelta_hours (d * 24).

(** A [UUID] is held as its canonical text, so that [str(u)] is [u]. *)
Definition UUID := str.
Definition str_of_UUID (u : UUID) : str := u.

(** ** Exceptions and completions

    A call completes by returning a value or by raising. *)

Inductive exn :=
| HTTPException (status_code : Z) (detail : str) (headers : list (string * string))
| DivisionByZero
| DataError.

Inductive completion (A : Type) :=
| Return (a : A)
| Raise (e : exn).
Arguments Return {A} a.
Arguments Raise {A} e.

Definition HTTP_200_OK := 200.
Definition HTTP_201_CREATED := 201.
Definition HTTP_400_BAD_REQUEST := 400.
Definition HTTP_401_UNAUTHORIZED := 401.
Definition HTTP_403_FORBIDDEN := 403.
Definition HTTP_404_NOT_FOUND := 404.

(** The dictionaries the handlers return as JSON bodies. *)
#[warnings="-register-all"]
Inductive pyval :=
| VStr (s : str)
| VBool (b : bool)
| VInt (z : Z)
| VDict (d : list (string * pyval)).

Definition dict := list (string * pyval).

Fixpoint get (key : string) (d : dict) : option pyval :=
  match d with
  | [] => None
  | (k, v) :: rest => if String.eqb k key then Some v else get key rest
  end.

Definition keys (d : dict) : list string := map fst d.

(** ** Queries on a table

    A table is the list of its rows in the order in which the store
    returns them.  The handlers issue no [order_by];
    [query.filter(p).first()] is the first row of the table that satisfies
    [p].  The object it returns is the row itself: attribute assignments
    followed by [db.commit()] rewrite that row.  [update_first] keeps the
    rewritten row at its place in the list; where the store puts it is
    [update_last], further down. *)
Section Query.
Context {A : Type}.

Definition first (p : A -> bool) (rows : list A) : option A := find p rows.

Fixpoint update_first (p : A -> bool) (f : A -> A) (rows : list A) : list A :=
  match rows with
  | [] => []
  | r :: rest => if p r then f r :: rest else r :: update_first p f rest
  end.

Fixpoint delete_first (p : A -> bool) (rows : list A) : list A :=
  match rows with
  | [] => []
  | r :: rest => if p r then rest else r :: delete_first p rest
  end.

(** [.offset(skip).limit(limit).all()]; the store refuses a negative
    offset or limit, which the session raises as [DataError].  It refuses
    as well what does not fit its 64-bit integers; the pages are stated
    below for offsets and limits under [2 ^ 63]. *)
Definition offset_limit (skip limit : Z) (rows : list A) : option (list A) :=
  if (skip <? 0) || (limit <? 0) then None
  else Some (firstn (Z.to_nat limit) (skipn (Z.to_nat skip) rows)).
End Query.

(** ** Configuration ([app/core/config.py]) *)

Class Settings := {
  BASE_URL : str;
  ACCESS_TOKEN_EXPIRE_MINUTES : Z;
  REFRESH_TOKEN_EXPIRE_DAYS : Z
}.

Definition default_settings : Settings := {|
  BASE_URL := lit "http://localhost:8000";
  ACCESS_TOKEN_EXPIRE_MINUTES := 30;
  REFRESH_TOKEN_EXPIRE_DAYS := 7
|}.

(** The password hashing scheme behind [User.hash_password] and
    [user.verify_password]. *)
Class CredentialHasher := {
  hash_password : str -> str;
  verify_password : str -> str -> bool
}.

(** ** Signed tokens *)

Inductive TokenKind := access | refresh.

(** Modelled from the spec: the token issuer of [app/models/user.py] is not
    among the sources.  A signed token is an opaque string to its bearer;
    here it is the payload it encodes (subject, kind, expiry instant) and
    whether its signature verifies under the signing secret. *)
Record Token := {
  sub : str;
  kind : TokenKind;
  exp : datetime;
  signature_valid : bool
}.

Definition kind_eqb (a b : TokenKind) : bool :=
  match a, b with
  | access, access | refresh, refresh => true
  | _, _ => false
  end.

(** ** The user model ([app/models/user.py])

    The router imports [User] from [app/models/user.py], which is not among
    the sources.  The columns are those of the spec's data model; the
    methods the router calls are modelled from the spec's description of
    the user lifecycle. *)
Module User.

Record t := mk {
  id : UUID;
  username : str;
  email : str;
  password : str;
  first_name : option str;
  last_name : option str;
  is_active : bool;
  is_verified : bool;
  verification_token : option str;
  verification_token_expires : option datetime;
  reset_token : option str;
  reset_token_expires : option datetime;
  created_at : datetime
}.

(** Attribute assignments. *)
Definition set_password (v : str) (u : t) : t :=
  mk (id u) (username u) (email u) v (first_name u) (last_name u)
     (is_active u) (is_verified u)
     (verification_token u) (verification_token_expires u)
     (reset_token u) (reset_token_expires u) (created_at u).

Definition set_is_verified (v : bool) (u : t) : t :=
  mk (id u) (username u) (email u) (password u) (first_name u) (last_name u)
     (is_active u) v
     (verification_token u) (verification_token_expires u)
     (reset_token u) (reset_token_expires u) (created_at u).

Definition set_verification_token (v : option str) (u : t) : t :=
  mk (id u) (username u) (email u) (password u) (first_name u) (last_name u)
     (is_active u) (is_verified u)
     v (verification_token_expires u)
     (reset_token u) (reset_token_expires u) (created_at u).

Definition set_verification_token_expires (v : option datetime) (u : t) : t :=
  mk (id u) (username u) (email u) (password u) (first_name u) (last_name u)
     (is_active u) (is_verified u)
     (verification_token u) v
     (reset_token u) (reset_token_expires u) (created_at u).

Definition set_reset_token (v : option str) (u : t) : t :=
  mk (id u) (username u) (email u) (password u) (first_name u) (last_name u)
     (is_active u) (is_verified u)
     (verification_token u) (verification_token_expires u)
     v (reset_token_expires u) (created_at u).

Definition set_reset_token_expires (v : option datetime) (u : t) : t :=
  mk (id u) (username u) (email u) (password u) (first_name u) (last_name u)
     (is_active u) (is_verified u)
     (verification_token u) (verification_token_expires u)
     (reset_token u) v (created_at u).

(** Modelled from the spec: [generate_verification_token] is not among the
    sources.  It stores a new random token with a 24h expiry and returns
    the token; [token] is the random string drawn. *)
Definition generate_verification_token (token : str) (now : datetime) (u : t) : t :=
  set_verification_token_expires (Some (now + timedelta_hours 24))
    (set_verification_token (Some token) u).

(** Modelled from the spec: [generate_reset_token] is not among the sources.
    It stores a new random token with a 1h expiry and returns the token. *)
Definition generate_reset_token (token : str) (now : datetime) (u : t) : t :=
  set_reset_token_expires (Some (now + timedelta_hours 1))
    (set_reset_token (Some token) u).

(** An expiry instant is past when the clock is beyond it. *)
Definition past (expires : option datetime) (now : datetime) : bool :=
  match expires with
  | Some e => e <? now
  | None => false
  end.

(** Modelled from the spec: [verify_email_token] is not among the sources.
    It answers [False] (here [None]) for a token that is not the stored one
    or is past its expiry; otherwise it marks the user verified, clears the
    token and its expiry, and answers [True] (here the user as updated). *)
Definition verify_email_token (token : str) (now : datetime) (u : t) : option t :=
  if negb (column_is (verification_token u) token) then None
  else if past (verification_token_expires u) now then None
  else Some (set_verification_token_expires None
               (set_verification_token None (set_is_verified true u))).

(** Modelled from the spec: [verify_reset_token] is not among the sources.
    It answers whether the token is the stored one and not past its expiry
    and changes nothing. *)
Definition verify_reset_token (token : str) (now : datetime) (u : t) : bool :=
  column_is (reset_token u) token && negb (past (reset_token_expires u) now).

Section Issuer.
Context `{Settings}.

(** Modelled from the spec: [create_access_token] and
    [create_refresh_token] are not among the sources.  Each issues a signed
    token for the subject, of its kind, expiring after the configured
    lifetime. *)
Definition create_access_token (subject : str) (now : datetime) : Token :=
  {| sub := subject; kind := access;
     exp := now + timedelta_minutes ACCESS_TOKEN_EXPIRE_MINUTES;
     signature_valid := true |}.

Definition create_refresh_token (subject : str) (now : datetime) : Token :=
  {| sub := subject; kind := refresh;
     exp := now + timedelta_days REFRESH_TOKEN_EXPIRE_DAYS;
     signature_valid := true |}.

(** Modelled from the spec: [verify_token] is not among the sources.  As
    the refresh route uses it, it answers the subject of a token whose
    signature verifies, that is of the refresh kind and is not past its
    expiry, and [None] otherwise. *)
Definition verify_token (token : Token) (now : datetime) : option UUID :=
  if negb (signature_valid token) then None
  else if exp token <? now then None
  else if negb (kind_eqb (kind token) refresh) then None
  else Some (sub token).

(** The dictionary [authenticate] answers on success. *)
Record AuthResult := {
  user : t;
  access_token : Token;
  refresh_token : Token;
  token_type : str;
  expires_at : datetime
}.

Context `{CredentialHasher}.

Definition named (username_or_email : str) (u : t) : bool :=
  str_eqb (username u) username_or_email || str_eqb (email u) username_or_email.

(** Modelled from the spec: [authenticate] is not among the sources.  It
    looks the user up by username or email and answers [None] alike when
    there is none and when the password does not verify; on a match it
    issues an access and a refresh token and answers them with the user. *)
Definition authenticate (db : list t) (username_or_email password_ : str)
  (now : datetime) : option AuthResult :=
  match first (named username_or_email) db with
  | None => None
  | Some u =>
      if negb (verify_password password_ (password u)) then None
      else Some {| user := u;
                   access_token := create_access_token (str_of_UUID (id u)) now;
                   refresh_token := create_refresh_token (str_of_UUID (id u)) now;
                   token_type := lit "bearer";
                   expires_at := now + timedelta_minutes ACCESS_TOKEN_EXPIRE_MINUTES |}
  end.

End Issuer.
End User.

(** ** Authentication routes ([app/api/auth.py]) *)

(** The tasks a handler hands to [background_tasks.add_task]: the methods
    of [email_service] with their keyword arguments. *)
Inductive EmailTask :=
| send_verification_email (to_email username verification_token base_url : str)
| send_welcome_email (to_email username : str) (first_name : option str)
| send_password_reset_email (to_email username reset_token base_url : str).

(** What a request leaves behind: its response, the users table as
    committed, and the background tasks it queued. *)
Record Outcome (A : Type) := {
  response : completion A;
  committed : list User.t;
  background_tasks : list EmailTask
}.
Arguments response {A} _.
Arguments committed {A} _.
Arguments background_tasks {A} _.

(** The response model of [login] and [refresh_token]. *)
Record TokenResponse := {
  access_token : Token;
  refresh_token_ : Token;
  token_type : str;
  expires_at : datetime;
  user : User.t
}.

Definition raised {A : Type} (db : list User.t) (e : exn) : Outcome A :=
  {| response := Raise e; committed := db; background_tasks := [] |}.

Definition has_verification_token (token : str) (u : User.t) : bool :=
  column_is (User.verification_token u) token.

Definition has_reset_token (token : str) (u : User.t) : bool :=
  column_is (User.reset_token u) token.

Definition has_email (email : str) (u : User.t) : bool :=
  str_eqb (User.email u) email.

Definition has_id (user_id : UUID) (u : User.t) : bool :=
  str_eqb (User.id u) user_id.

Section AuthRoutes.
Context `{Settings} `{CredentialHasher}.

Definition verify_email (db : list User.t) (token : str) (now : datetime)
  : Outcome dict :=
  match first (has_verification_token token) db with
  | None =>
      raised db (HTTPException HTTP_400_BAD_REQUEST
                   (lit "Invalid verification token") [])
  | Some user =>
      match User.verify_email_token token now user with
      | None =>
          raised db (HTTPException HTTP_400_BAD_REQUEST
                       (lit "Verification token has expired. Please request a new one.") [])
      | Some user' =>
          {| response := Return
               [("message", VStr (lit "Email verified successfully! You can now log in."));
                ("email", VStr (User.email user'));
                ("is_verified", VBool true)];
             committed := update_first (has_verification_token token) (fun _ => user') db;
             background_tasks :=
               [send_welcome_email (User.email user') (User.username user')
                  (User.first_name user')] |}
      end
  end.

(** [token] is the random string [generate_verification_token] draws. *)
Definition resend_verification_email (db : list User.t) (email token : str)
  (now : datetime) : Outcome dict :=
  match first (has_email email) db with
  | None =>
      {| response := Return
           [("message", VStr (lit "If the email exists, a verification link has been sent."))];
         committed := db;
         background_tasks := [] |}
  | Some user =>
      if User.is_verified user then
        raised db (HTTPException HTTP_400_BAD_REQUEST
                     (lit "Email is already verified") [])
      else
        let user' := User.generate_verification_token token now user in
        {| response := Return
             [("message", VStr (lit "Verification email sent successfully"))];
           committed := update_first (has_email email) (fun _ => user') db;
           background_tasks :=
             [send_verification_email (User.email user') (User.username user')
                token BASE_URL] |}
  end.

Definition login (db : list User.t) (username password : str) (now : datetime)
  : completion TokenResponse :=
  match User.authenticate db username password now with
  | None =>
      Raise (HTTPException HTTP_401_UNAUTHORIZED
               (lit "Incorrect username or password")
               [("WWW-Authenticate", "Bearer")])
  | Some auth_result =>
      let user := User.user auth_result in
      if negb (User.is_verified user) then
        Raise (HTTPException HTTP_403_FORBIDDEN
                 (lit "Please verify your email before logging in. Check your inbox for the verification link.") [])
      else if negb (User.is_active user) then
        Raise (HTTPException HTTP_403_FORBIDDEN
                 (lit "Account is inactive. Please contact support.") [])
      else
        Return {| access_token := User.access_token auth_result;
                  refresh_token_ := User.refresh_token auth_result;
                  token_type := User.token_type auth_result;
                  expires_at := User.expires_at auth_result;
                  user := user |}
  end.

Definition refresh_token (db : list User.t) (refresh_token : Token)
  (now : datetime) : completion TokenResponse :=
  match User.verify_token refresh_token now with
  | None =>
      Raise (HTTPException HTTP_401_UNAUTHORIZED
               (lit "Invalid refresh token")
               [("WWW-Authenticate", "Bearer")])
  | Some user_id =>
      match first (has_id user_id) db with
      | None =>
          Raise (HTTPException HTTP_401_UNAUTHORIZED
                   (lit "User not found or inactive") [])
      | Some user =>
          if negb (User.is_active user) then
            Raise (HTTPException HTTP_401_UNAUTHORIZED
                     (lit "User not found or inactive") [])
          else
            Return {| access_token :=
                        User.create_access_token (str_of_UUID (User.id user)) now;
                      refresh_token_ :=
                        User.create_refresh_token (str_of_UUID (User.id user)) now;
                      token_type := lit "bearer";
                      expires_at := now + timedelta_minutes ACCESS_TOKEN_EXPIRE_MINUTES;
                      user := user |}
      end
  end.

(** [token] is the random string [generate_reset_token] draws. *)
Definition forgot_password (db : list User.t) (email token : str)
  (now : datetime) : Outcome dict :=
  match first (has_email email) db with
  | None =>
      {| response := Return
           [("message", VStr (lit "If the email exists, a password reset link has been sent."))];
         committed := db;
         background_tasks := [] |}
  | Some user =>
      let user' := User.generate_reset_token token now user in
      {| response := Return
           [("message", VStr (lit "If the email exists, a password reset link has been sent."))];
         committed := update_first (has_email email) (fun _ => user') db;
         background_tasks :=
           [send_password_reset_email (User.email user') (User.username user')
              token BASE_URL] |}
  end.

Definition reset_password (db : list User.t) (token new_password : str)
  (now : datetime) : Outcome dict :=
  match first (has_reset_token token) db with
  | None =>
      raised db (HTTPException HTTP_400_BAD_REQUEST (lit "Invalid reset token") [])
  | Some user =>
      if negb (User.verify_reset_token token now user) then
        raised db (HTTPException HTTP_400_BAD_REQUEST
                     (lit "Reset token has expired. Please request a new one.") [])
      else if len new_password <? 6 then
        raised db (HTTPException HTTP_400_BAD_REQUEST
                     (lit "Password must be at least 6 characters long") [])
      else
        let user' :=
          User.set_reset_token_expires None
            (User.set_reset_token None
               (User.set_password (hash_password new_password) user)) in
        {| response := Return
             [("message", VStr (lit "Password reset successfully. You can now log in with your new password."))];
           committed := update_first (has_reset_token token) (fun _ => user') db;
           background_tasks := [] |}
  end.

End AuthRoutes.

(** ** The calculation model ([app/models/calculation.py])

    Neither the model nor its schemas are among the sources; they are
    modelled from the spec's data model. *)

(** Modelled from the spec: the enumeration of operations is not among the
    sources; the spec names add, subtract, multiply and divide. *)
Module OperationType.

Inductive t := add | subtract | multiply | divide.

Definition eqb (a b : t) : bool :=
  match a, b with
  | add, add | subtract, subtract | multiply, multiply | divide, divide => true
  | _, _ => false
  end.

Definition name (op : t) : string :=
  match op with
  | add => "add"
  | subtract => "subtract"
  | multiply => "multiply"
  | divide => "divide"
  end.

Definition all : list t := [add; subtract; multiply; divide].

End OperationType.

(** The operands are Python floats.  The handlers never inspect them, so
    the development is generic in the numeric type and its arithmetic. *)
Class Number (num : Type) := {
  num_add : num -> num -> num;
  num_sub : num -> num -> num;
  num_mul : num -> num -> num;
  num_div : num -> num -> num;
  num_is_zero : num -> bool
}.

Module Calculation.

Record t (num : Type) := mk {
  id : UUID;
  user_id : UUID;
  operation : OperationType.t;
  operand1 : num;
  operand2 : num;
  result : option num;
  created_at : datetime;
  updated_at : datetime
}.
Arguments mk {num}.
Arguments id {num}.
Arguments user_id {num}.
Arguments operation {num}.
Arguments operand1 {num}.
Arguments operand2 {num}.
Arguments result {num}.
Arguments created_at {num}.
Arguments updated_at {num}.

Section Model.
Context {num : Type} `{Number num}.

Definition set_operation (v : OperationType.t) (c : t num) : t num :=
  mk (id c) (user_id c) v (operand1 c) (operand2 c) (result c)
     (created_at c) (updated_at c).

Definition set_operand1 (v : num) (c : t num) : t num :=
  mk (id c) (user_id c) (operation c) v (operand2 c) (result c)
     (created_at c) (updated_at c).

Definition set_operand2 (v : num) (c : t num) : t num :=
  mk (id c) (user_id c) (operation c) (operand1 c) v (result c)
     (created_at c) (updated_at c).

Definition set_result (v : option num) (c : t num) : t num :=
  mk (id c) (user_id c) (operation c) (operand1 c) (operand2 c) v
     (created_at c) (updated_at c).

(** Modelled from the spec: the arithmetic behind [calculate] is not among
    the sources.  This is the spec's [f(operation, operand1, operand2)];
    dividing by zero is rejected with [DivisionByZero]. *)
Definition f (op : OperationType.t) (a b : num) : completion num :=
  match op with
  | OperationType.add => Return (num_add a b)
  | OperationType.subtract => Return (num_sub a b)
  | OperationType.multiply => Return (num_mul a b)
  | OperationType.divide =>
      if num_is_zero b then Raise DivisionByZero else Return (num_div a b)
  end.

(** Modelled from the spec: [calculate] is not among the sources.  It
    stores [f] of the record's operation and operands as its result, or
    raises what [f] raises and stores nothing. *)
Definition calculate (c : t num) : completion (t num) :=
  match f (operation c) (operand1 c) (operand2 c) with
  | Return v => Return (set_result (Some v) c)
  | Raise e => Raise e
  end.

End Model.
End Calculation.

(** ** Calculation routes ([app/api/calculations.py])

    [current_user] is the user the authentication dependency resolved from
    the bearer token.  A handler answers its completion and the
    calculations table as committed. *)

(** Modelled from the spec: the request schemas of
    [app/schemas/calculation.py] are not among the sources.
    [CalculationBase] carries the operation and both operands;
    [CalculationUpdate] carries the same fields, each optional, and
    [model_dump(exclude_unset=True)] keeps those that were supplied. *)
Record CalculationBase (num : Type) := {
  base_operation : OperationType.t;
  base_operand1 : num;
  base_operand2 : num
}.
Arguments base_operation {num}.
Arguments base_operand1 {num}.
Arguments base_operand2 {num}.

Record CalculationUpdate (num : Type) := {
  update_operation : option OperationType.t;
  update_operand1 : option num;
  update_operand2 : option num
}.
Arguments update_operation {num}.
Arguments update_operand1 {num}.
Arguments update_operand2 {num}.

Section CalculationRoutes.
Context {num : Type} `{Number num}.

Definition owned_by (user_id : UUID) (c : Calculation.t num) : bool :=
  str_eqb (Calculation.user_id c) user_id.

Definition is_calculation (calculation_id user_id : UUID) (c : Calculation.t num) : bool :=
  str_eqb (Calculation.id c) calculation_id && owned_by user_id c.

(** [new_id] is the primary key drawn for the new row. *)
Definition create_calculation (db : list (Calculation.t num))
  (current_user : User.t) (calculation : CalculationBase num)
  (new_id : UUID) (now : datetime)
  : completion (Calculation.t num) * list (Calculation.t num) :=
  let db_calculation :=
    Calculation.mk new_id (User.id current_user)
      (base_operation calculation) (base_operand1 calculation)
      (base_operand2 calculation) None now now in
  match Calculation.calculate db_calculation with
  | Raise e => (Raise e, db)
  | Return db_calculation' => (Return db_calculation', db ++ [db_calculation'])
  end.

Definition list_calculations (db : list (Calculation.t num))
  (current_user : User.t) (skip limit : Z)
  : completion (list (Calculation.t num)) :=
  match offset_limit skip limit (filter (owned_by (User.id current_user)) db) with
  | None => Raise DataError
  | Some calculations => Return calculations
  end.

Definition get_calculation (db : list (Calculation.t num))
  (current_user : User.t) (calculation_id : UUID)
  : completion (Calculation.t num) :=
  match first (is_calculation calculation_id (User.id current_user)) db with
  | None =>
      Raise (HTTPException HTTP_404_NOT_FOUND (lit "Calculation not found") [])
  | Some calculation => Return calculation
  end.

(** The loop [for field, value in update_data.items(): setattr(...)]. *)
Definition apply_update (update_data : CalculationUpdate num)
  (c : Calculation.t num) : Calculation.t num :=
  let c1 := match update_operation update_data with
            | Some v => Calculation.set_operation v c
            | None => c
            end in
  let c2 := match update_operand1 update_data with
            | Some v => Calculation.set_operand1 v c1
            | None => c1
            end in
  match update_operand2 update_data with
  | Some v => Calculation.set_operand2 v c2
  | None => c2
  end.

Definition update_calculation (db : list (Calculation.t num))
  (current_user : User.t) (calculation_id : UUID)
  (calculation_update : CalculationUpdate num)
  : completion (Calculation.t num) * list (Calculation.t num) :=
  match first (is_calculation calculation_id (User.id current_user)) db with
  | None =>
      (Raise (HTTPException HTTP_404_NOT_FOUND (lit "Calculation not found") []), db)
  | Some db_calculation =>
      match Calculation.calculate (apply_update calculation_update db_calculation) with
      | Raise e => (Raise e, db)
      | Return db_calculation' =>
          (Return db_calculation',
           update_first (is_calculation calculation_id (User.id current_user))
             (fun _ => db_calculation') db)
      end
  end.

Definition delete_calculation (db : list (Calculation.t num))
  (current_user : User.t) (calculation_id : UUID)
  : completion unit * list (Calculation.t num) :=
  match first (is_calculation calculation_id (User.id current_user)) db with
  | None =>
      (Raise (HTTPException HTTP_404_NOT_FOUND (lit "Calculation not found") []), db)
  | Some _ =>
      (Return tt,
       delete_first (is_calculation calculation_id (User.id current_user)) db)
  end.

(** [func.count(Calculation.id)] over the rows that pass the filter. *)
Definition count (p : Calculation.t num -> bool) (db : list (Calculation.t num)) : Z :=
  Z.of_nat (List.length (filter p db)).

Definition has_operation (op : OperationType.t) (c : Calculation.t num) : bool :=
  OperationType.eqb (Calculation.operation c) op.

(** The grouped query: one row per operation that occurs among the user's
    calculations, with its count. *)
Definition count_by_operation (user_id : UUID) (db : list (Calculation.t num))
  : list (OperationType.t * Z) :=
  filter (fun row => 0 <? snd row)
    (map (fun op => (op, count (has_operation op) (filter (owned_by user_id) db)))
       OperationType.all).

Definition get_calculation_stats (db : list (Calculation.t num))
  (current_user : User.t) : dict :=
  let total := count (owned_by (User.id current_user)) db in
  let operations := count_by_operation (User.id current_user) db in
  let operations_dict :=
    map (fun row => (OperationType.name (fst row), VInt (snd row))) operations in
  [("total_calculations", VInt total);
   ("operations", VDict operations_dict);
   ("user", VDict [("id", VStr (str_of_UUID (User.id current_user)));
                   ("username", VStr (User.username current_user));
                   ("email", VStr (User.email current_user))])].

(** The rows of the other users, which a request of [user_id] must leave
    alone. *)
Definition others (user_id : UUID) (db : list (Calculation.t num))
  : list (Calculation.t num) :=
  filter (fun c => negb (owned_by user_id c)) db.

End CalculationRoutes.


(** ** Sample data

    Concrete tables and requests on which the handlers are run below. *)

(** A hashing scheme to run the handlers on concrete requests: the hash of
    a password is the password behind a marker. *)
Definition marker_hasher : CredentialHasher := {|
  hash_password := fun p => lit "$" ++ p;
  verify_password := fun p h => str_eqb (lit "$" ++ p) h
|}.

(** Alice is verified and active. *)
Definition alice : User.t :=
  User.mk (lit "u-1") (lit "alice") (lit "alice@example.com") (lit "$wonderland")
    None None true true None None None None 0.

(** Bob registered, has not verified his email, and was deactivated. *)
Definition bob : User.t :=
  User.mk (lit "u-2") (lit "bob") (lit "bob@example.com") (lit "$builder1")
    None None false false (Some (lit "vt-bob")) (Some (timedelta_hours 24))
    None None 0.

(** Carol registered and has not verified her email yet. *)
Definition carol : User.t :=
  User.mk (lit "u-3") (lit "carol") (lit "carol@example.com") (lit "$christmas")
    None None true false (Some (lit "vt-carol")) (Some (timedelta_hours 24))
    None None 0.

Definition sample_users : list User.t := [alice; bob; carol].

(** Tokens as a client may present them: Alice's refresh token, her access
    token, a refresh token whose signature does not verify, and the refresh
    token of the deactivated Bob. *)
Definition alice_refresh : Token :=
  {| sub := lit "u-1"; kind := refresh; exp := 1000; signature_valid := true |}.

Definition alice_access : Token :=
  {| sub := lit "u-1"; kind := access; exp := 1000; signature_valid := true |}.

Definition forged_refresh : Token :=
  {| sub := lit "u-1"; kind := refresh; exp := 1000; signature_valid := false |}.

Definition bob_refresh : Token :=
  {| sub := lit "u-2"; kind := refresh; exp := 1000; signature_valid := true |}.

(** Rational operands, to run the calculation handlers. *)
Definition Q_number : Number Q := {|
  num_add := Qplus;
  num_sub := Qminus;
  num_mul := Qmult;
  num_div := Qdiv;
  num_is_zero := fun q => Qeq_bool q 0
|}.

(** Alice owns [c-1] and [c-3], Carol owns [c-2]; the stored result of
    [c-3] is stale. *)
Definition calc1 : Calculation.t Q :=
  Calculation.mk (lit "c-1") (lit "u-1") OperationType.add (2 # 1)%Q (3 # 1)%Q
    (Some (5 # 1)%Q) 0 0.

Definition calc2 : Calculation.t Q :=
  Calculation.mk (lit "c-2") (lit "u-3") OperationType.divide (6 # 1)%Q (3 # 1)%Q
    (Some (2 # 1)%Q) 0 0.

Definition calc3 : Calculation.t Q :=
  Calculation.mk (lit "c-3") (lit "u-1") OperationType.multiply (4 # 1)%Q (5 # 1)%Q
    (Some 0%Q) 0 0.

Definition sample_calculations : list (Calculation.t Q) := [calc1; calc2; calc3].

Definition no_change : CalculationUpdate Q :=
  {| update_operation := None; update_operand1 := None; update_operand2 := None |}.

(** ** Reading responses and tables *)

(** The sum of the integer values of a dictionary. *)
Fixpoint sum_values (d : dict) : Z :=
  match d with
  | [] => 0
  | (_, VInt z) :: rest => z + sum_values rest
  | _ :: rest => sum_values rest
  end.

(** The columns that identify an account and say whether it is enabled. *)
Definition identity (u : User.t) : UUID * str * str * bool :=
  (User.id u, User.username u, User.email u, User.is_active u).

(** The exception [get_calculation], [update_calculation] and
    [delete_calculation] raise for a missing record. *)
Definition NotFound : exn :=
  HTTPException HTTP_404_NOT_FOUND (lit "Calculation not found") [].

(** What a user can observe of the calculations table: the three read
    routes, for every request.  [same_view reader db db'] says that
    [reader] observes the same on both tables. *)
Definition same_view {num : Type} `{Number num} (reader : User.t)
  (db db' : list (Calculation.t num)) : Prop :=
  (forall cid, get_calculation db' reader cid = get_calculation db reader cid)
  /\ (forall skip limit,
        list_calculations db' reader skip limit
        = list_calculations db reader skip limit)
  /\ get_calculation_stats db' reader = get_calculation_stats db reader.

(** The value a partial update leaves in a field. *)
Definition supplied {V : Type} (field : option V) (previous : V) : V :=
  match field with
  | Some v => v
  | None => previous
  end.

(** Two completions of [login] that a client cannot tell apart: the same
    exception, or the same tokens for the same account. *)
Definition same_session (a b : completion TokenResponse) : Prop :=
  match a, b with
  | Raise e, Raise e' => e = e'
  | Return r, Return r' =>
      access_token r = access_token r'
      /\ refresh_token_ r = refresh_token_ r'
      /\ token_type r = token_type r'
      /\ expires_at r = expires_at r'
      /\ identity (user r) = identity (user r')
      /\ User.password (user r) = User.password (user r')
  | _, _ => False
  end.

(** What [verify_email_token] assigns on success, and what
    [reset_password] assigns. *)
Definition mark_verified (u : User.t) : User.t :=
  User.set_verification_token_expires None
    (User.set_verification_token None (User.set_is_verified true u)).

Definition with_new_password (hashed : str) (u : User.t) : User.t :=
  User.set_reset_token_expires None
    (User.set_reset_token None (User.set_password hashed u)).

(** A record whose stored result is [f] of its operation and operands. *)
Definition consistent {num : Type} `{Number num} (c : Calculation.t num) : Prop :=
  exists v,
    Calculation.f (Calculation.operation c) (Calculation.operand1 c)
      (Calculation.operand2 c) = Return v
    /\ Calculation.result c = Some v.

(** ** Where the store keeps a rewritten row

    PostgreSQL, the store that [DATABASE_URL] of [app/core/config.py]
    names, writes the new version of an updated row behind the rows it
    holds, and a query without [order_by] returns the rows as they are
    held: after an UPDATE the row comes last.  [update_last] is
    [update_first] with the rewritten row put there. *)
Section Placement.
Context {A : Type}.

Fixpoint update_last (p : A -> bool) (f : A -> A) (rows : list A) : list A :=
  match rows with
  | [] => []
  | r :: rest => if p r then rest ++ [f r] else r :: update_last p f rest
  end.

End Placement.

(** [update_calculation] with the rewritten row where the store puts it. *)
Definition update_calculation_stored {num : Type} `{Number num}
  (db : list (Calculation.t num)) (current_user : User.t) (calculation_id : UUID)
  (calculation_update : CalculationUpdate num)
  : completion (Calculation.t num) * list (Calculation.t num) :=
  match first (is_calculation calculation_id (User.id current_user)) db with
  | None =>
      (Raise (HTTPException HTTP_404_NOT_FOUND (lit "Calculation not found") []), db)
  | Some db_calculation =>
      match Calculation.calculate (apply_update calculation_update db_calculation) with
      | Raise e => (Raise e, db)
      | Return db_calculation' =>
          (Return db_calculation',
           update_last (is_calculation calculation_id (User.id current_user))
             (fun _ => db_calculation') db)
      end
  end.

(** ** Links mailed to the user ([app/auth/email.py])

    [send_verification_email] and [send_password_reset_email] format the
    link they mail from the base URL and the token. *)
Definition verification_link (base_url verification_token : str) : str :=
  base_url ++ lit "/api/auth/verify-email?token=" ++ verification_token.

Definition reset_link (base_url reset_token : str) : str :=
  base_url ++ lit "/reset-password?token=" ++ reset_token.

(** More rows to run the calculation handlers on: Alice divides. *)
Definition calc4 : Calculation.t Q :=
  Calculation.mk (lit "c-4") (lit "u-1") OperationType.divide (9 # 1)%Q (3 # 1)%Q
    (Some (9 # 3)%Q) 0 0.

Definition more_calculations : list (Calculation.t Q) := [calc1; calc2; calc3; calc4].

Definition zero_divisor : CalculationUpdate Q :=
  {| update_operation := None; update_operand1 := None;
     update_operand2 := Some (0 # 1)%Q |}.

Definition to_subtract : CalculationUpdate Q :=
  {| update_operation := Some OperationType.subtract; update_operand1 := None;
     update_operand2 := None |}.

(** Dave is verified and active and has asked for a password reset. *)
Definition dave : User.t :=
  User.mk (lit "u-4") (lit "dave") (lit "dave@example.com") (lit "$oldsecret")
    None None true true None None (Some (lit "rt-dave")) (Some (timedelta_hours 1)) 0.

Definition more_users : list User.t := [alice; bob; carol; dave].

(** * Properties *)

(** ** Strings and queries *)

Lemma str_eqb_eq (a b : str) : str_eqb a b = true <-> a = b.
Proof.
  unfold str_eqb. destruct (list_eq_dec N.eq_dec a b); split; congruence.
Qed.

Lemma str_eqb_refl (a : str) : str_eqb a a = true.
Proof. now apply str_eqb_eq. Qed.

Lemma str_eqb_neq (a b : str) : str_eqb a b = false <-> a <> b.
Proof.
  unfold str_eqb. destruct (list_eq_dec N.eq_dec a b); split; congruence.
Qed.

Section QueryFacts.
Context {A : Type}.
Implicit Types (p q : A -> bool) (f : A -> A) (rows : list A).

Lemma first_holds p rows r : first p rows = Some r -> p r = true.
Proof. intros Hf. apply (find_some _ _ Hf). Qed.

Lemma first_In p rows r : first p rows = Some r -> In r rows.
Proof. intros Hf. apply (find_some _ _ Hf). Qed.

Lemma first_absent p rows :
  (forall r, In r rows -> p r = false) -> first p rows = None.
Proof.
  induction rows as [|x rest IH]; intros Hall; simpl; [reflexivity|].
  rewrite (Hall x (or_introl eq_refl)). apply IH.
  intros r Hr. apply Hall. now right.
Qed.

(** Rewriting the row a query found leaves a second query, which found the
    same row, finding the rewritten row. *)
Lemma first_update_first p q f rows r :
  first p rows = Some r -> first q rows = Some r -> q (f r) = true ->
  first q (update_first p f rows) = Some (f r).
Proof.
  unfold first. induction rows as [|x rest IH]; simpl; [discriminate|].
  intros Hp Hq Hqf. destruct (p x) eqn:Hpx.
  - injection Hp as ->. simpl. now rewrite Hqf.
  - destruct (q x) eqn:Hqx.
    + injection Hq as ->. apply find_some in Hp. destruct Hp as [_ Hp]. congruence.
    + simpl. rewrite Hqx. now apply IH.
Qed.

(** The same when the second query is the first one. *)
Lemma first_update_same p f rows r :
  first p rows = Some r -> p (f r) = true ->
  first p (update_first p f rows) = Some (f r).
Proof. intros Hp Hpf. now apply first_update_first. Qed.

(** A query that matched no row, and does not match the rewritten row,
    matches no row afterwards. *)
Lemma absent_update_first p q f rows r :
  first p rows = Some r ->
  (forall x, In x rows -> q x = false) -> q (f r) = false ->
  forall x, In x (update_first p f rows) -> q x = false.
Proof.
  unfold first. induction rows as [|y rest IH]; simpl; [discriminate|].
  intros Hp Hall Hqf x. destruct (p y) eqn:Hpy.
  - injection Hp as ->. simpl. intros [<-|Hin]; [assumption|]. apply Hall. now right.
  - simpl. intros [<-|Hin]; [apply Hall; now left|].
    apply IH; auto.
Qed.

(** Rows that a rewrite of the first match cannot touch. *)
Lemma filter_update_first p q f rows :
  (forall x, p x = true -> q x = false) ->
  (forall x, p x = true -> q (f x) = false) ->
  filter q (update_first p f rows) = filter q rows.
Proof.
  intros Hpq Hpf. induction rows as [|x rest IH]; simpl; [reflexivity|].
  destruct (p x) eqn:Hpx; simpl.
  - now rewrite (Hpq x Hpx), (Hpf x Hpx).
  - now rewrite IH.
Qed.

Lemma filter_delete_first p q rows :
  (forall x, p x = true -> q x = false) ->
  filter q (delete_first p rows) = filter q rows.
Proof.
  intros Hpq. induction rows as [|x rest IH]; simpl; [reflexivity|].
  destruct (p x) eqn:Hpx; simpl.
  - now rewrite (Hpq x Hpx).
  - now rewrite IH.
Qed.

End QueryFacts.

(** ** Login *)

Section LoginFacts.
Context `{Settings} `{CredentialHasher}.

Lemma authenticate_user db username password now auth_result :
  User.authenticate db username password now = Some auth_result ->
  first (User.named username) db = Some (User.user auth_result)
  /\ verify_password password (User.password (User.user auth_result)) = true.
Proof.
  unfold User.authenticate. destruct (first _ db) as [u|]; [|discriminate].
  destruct (verify_password password (User.password u)) eqn:Hv; simpl; [|discriminate].
  intros [= <-]. simpl. auto.
Qed.


End LoginFacts.

Section LoginClaims.
Context `{Settings} `{CredentialHasher}.

(** C5.  [login] raises the very same 401 error, with the same message and
    headers, for a name that no user bears and for a user whose password
    does not verify. *)
Theorem login_invalid_credentials_indistinguishable
  (db : list User.t) (unknown known password1 password2 : str)
  (now1 now2 : datetime) (u : User.t) :
  first (User.named unknown) db = None ->
  first (User.named known) db = Some u ->
  verify_password password2 (User.password u) = false ->
  login db unknown password1 now1 = login db known password2 now2
  /\ login db unknown password1 now1 =
     Raise (HTTPException HTTP_401_UNAUTHORIZED
              (lit "Incorrect username or password")
              [("WWW-Authenticate", "Bearer")]).
Proof.
  intros Hnone Hsome Hpw. unfold login, User.authenticate.
  rewrite Hnone, Hsome, Hpw. simpl. split; reflexivity.
Qed.


End LoginClaims.


Lemma login_invalid_credentials_indistinguishable_witness :
  @login default_settings marker_hasher sample_users (lit "mallory") (lit "wonderland") 1
  = @login default_settings marker_hasher sample_users (lit "alice") (lit "guess") 2
  /\ @login default_settings marker_hasher sample_users (lit "mallory") (lit "wonderland") 1
     = Raise (HTTPException HTTP_401_UNAUTHORIZED
                (lit "Incorrect username or password")
                [("WWW-Authenticate", "Bearer")]).
Proof.
  apply (@login_invalid_credentials_indistinguishable default_settings marker_hasher
           sample_users (lit "mallory") (lit "alice") (lit "wonderland") (lit "guess")
           1 2 alice); reflexivity.
Defined.


(** ** Password reset *)

Section QueryFreshFacts.
Context {A : Type}.
Implicit Types (p q : A -> bool) (f g : A -> A) (rows : list A).

(** A second rewrite, through a query that only the row just rewritten
    satisfies, lands on that same row. *)
Lemma update_first_twice p q f g rows r :
  first p rows = Some r ->
  (forall x, In x rows -> q x = false) ->
  (forall x, q (f x) = true) ->
  update_first q g (update_first p f rows)
  = update_first p (fun x => g (f x)) rows.
Proof.
  unfold first. induction rows as [|x rest IH]; simpl; [discriminate|].
  intros Hp Hfresh Hqf. destruct (p x) eqn:Hpx; simpl.
  - now rewrite Hqf.
  - rewrite (Hfresh x (or_introl eq_refl)). f_equal.
    apply IH; auto.
Qed.

Lemma first_update_fresh p q f rows r :
  first p rows = Some r ->
  (forall x, In x rows -> q x = false) ->
  q (f r) = true ->
  first q (update_first p f rows) = Some (f r).
Proof.
  unfold first. induction rows as [|x rest IH]; simpl; [discriminate|].
  intros Hp Hfresh Hqf. destruct (p x) eqn:Hpx; simpl.
  - injection Hp as ->. now rewrite Hqf.
  - rewrite (Hfresh x (or_introl eq_refl)). apply IH; auto.
Qed.

End QueryFreshFacts.

Section ResetClaims.
Context `{Settings} `{CredentialHasher}.

(** C2.  Let [forgot_password] issue [token] for an existing user, the
    token being new among the stored reset tokens.  A first
    [reset_password] with that token, a password of at least 6 characters
    and a clock not beyond the token's expiry succeeds, stores the new
    password hash and clears the user's reset token and its expiry; no row
    holds the token afterwards, and every later [reset_password] with it
    raises 400 "Invalid reset token". *)
Theorem reset_token_single_use
  (db : list User.t) (email token : str) (now : datetime) (u : User.t) :
  first (has_email email) db = Some u ->
  (forall x, In x db -> has_reset_token token x = false) ->
  let issued := forgot_password db email token now in
  background_tasks issued
    = [send_password_reset_email (User.email u) (User.username u) token BASE_URL]
  /\ forall (new_password : str) (now1 : datetime),
       6 <= len new_password ->
       now1 <= now + timedelta_hours 1 ->
       let once := reset_password (committed issued) token new_password now1 in
       response once
         = Return [("message", VStr (lit "Password reset successfully. You can now log in with your new password."))]
       /\ (exists u',
             first (has_email email) (committed once) = Some u'
             /\ User.id u' = User.id u
             /\ User.password u' = hash_password new_password
             /\ User.reset_token u' = None
             /\ User.reset_token_expires u' = None)
       /\ (forall x, In x (committed once) -> User.reset_token x <> Some token)
       /\ forall (new_password' : str) (now2 : datetime),
            response (reset_password (committed once) token new_password' now2)
            = Raise (HTTPException HTTP_400_BAD_REQUEST (lit "Invalid reset token") []).
Proof.
  intros Hemail Hfresh issued.
  assert (Hissued : issued =
            {| response := Return
                 [("message", VStr (lit "If the email exists, a password reset link has been sent."))];
               committed := update_first (has_email email)
                              (fun _ => User.generate_reset_token token now u) db;
               background_tasks :=
                 [send_password_reset_email (User.email u) (User.username u)
                    token BASE_URL] |}).
  { unfold issued, forgot_password. rewrite Hemail. reflexivity. }
  rewrite Hissued. simpl. split; [reflexivity|].
  intros new_password now1 Hlen Hclock.
  set (u1 := User.generate_reset_token token now u).
  set (db1 := update_first (has_email email) (fun _ => u1) db).
  assert (Hq1 : has_reset_token token u1 = true).
  { unfold has_reset_token, u1. simpl. apply str_eqb_refl. }
  assert (Hfound : first (has_reset_token token) db1 = Some u1).
  { apply (first_update_fresh _ _ (fun _ => u1) db u Hemail Hfresh Hq1). }
  assert (Hvalid : User.verify_reset_token token now1 u1 = true).
  { unfold User.verify_reset_token. fold (has_reset_token token u1). rewrite Hq1.
    unfold u1. simpl. apply negb_true_iff, Z.ltb_ge. exact Hclock. }
  assert (Hlong : (len new_password <? 6) = false) by (apply Z.ltb_ge; exact Hlen).
  set (u2 := User.set_reset_token_expires None
               (User.set_reset_token None
                  (User.set_password (hash_password new_password) u1))).
  assert (Honce : reset_password db1 token new_password now1 =
            {| response := Return
                 [("message", VStr (lit "Password reset successfully. You can now log in with your new password."))];
               committed := update_first (has_reset_token token) (fun _ => u2) db1;
               background_tasks := [] |}).
  { unfold reset_password. rewrite Hfound, Hvalid, Hlong. reflexivity. }
  rewrite Honce. simpl.
  assert (Hdb2 : update_first (has_reset_token token) (fun _ => u2) db1
                 = update_first (has_email email) (fun _ => u2) db).
  { unfold db1.
    apply (update_first_twice _ _ (fun _ => u1) (fun _ => u2) db u Hemail Hfresh).
    intros _. exact Hq1. }
  rewrite Hdb2.
  assert (Hgone : forall x,
            In x (update_first (has_email email) (fun _ => u2) db) ->
            has_reset_token token x = false).
  { apply (absent_update_first _ _ (fun _ => u2) db u Hemail Hfresh). reflexivity. }
  split; [reflexivity|]. split; [|split].
  - exists u2. split.
    + apply (first_update_same _ (fun _ => u2) db u Hemail).
      apply first_holds in Hemail. exact Hemail.
    + unfold u2, u1. simpl. auto.
  - intros x Hx Heq. specialize (Hgone x Hx).
    unfold has_reset_token in Hgone. rewrite Heq in Hgone. simpl in Hgone.
    rewrite str_eqb_refl in Hgone. discriminate.
  - intros new_password' now2. unfold reset_password.
    rewrite (first_absent _ _ Hgone). reflexivity.
Qed.

End ResetClaims.

Lemma reset_token_single_use_witness :
  let issued :=
    @forgot_password default_settings sample_users (lit "alice@example.com") (lit "rt-1") 100 in
  let once :=
    @reset_password marker_hasher (committed issued) (lit "rt-1") (lit "looking-glass") 200 in
  response once
    = Return [("message", VStr (lit "Password reset successfully. You can now log in with your new password."))]
  /\ response (@reset_password marker_hasher (committed once) (lit "rt-1") (lit "jabberwocky") 300)
     = Raise (HTTPException HTTP_400_BAD_REQUEST (lit "Invalid reset token") []).
Proof.
  intros issued once.
  assert (Hfresh : forall x, In x sample_users -> has_reset_token (lit "rt-1") x = false).
  { intros x [<-|[<-|[<-|[]]]]; reflexivity. }
  destruct (@reset_token_single_use default_settings marker_hasher
              sample_users (lit "alice@example.com") (lit "rt-1") 100 alice
              eq_refl Hfresh) as [_ Hreset].
  assert (Hlen : 6 <= len (lit "looking-glass")) by (vm_compute; discriminate).
  assert (Hclock : 200 <= 100 + timedelta_hours 1) by (vm_compute; discriminate).
  destruct (Hreset (lit "looking-glass") 200 Hlen Hclock)
    as (Hfirst & _ & _ & Hsecond).
  split; [exact Hfirst|]. apply Hsecond.
Defined.

(** ** Responses that do not depend on the account *)

Section EnumerationClaims.
Context `{Settings}.

(** C6, as amended.  [forgot_password] returns one and the same message
    whether or not a user has the email.  [resend_verification_email]
    returns its generic message when no user has the email, and raises 400
    "Email is already verified" when the user who has it is verified. *)
Theorem anti_enumeration_responses
  (db : list User.t) (email token : str) (now : datetime) :
  response (forgot_password db email token now)
    = Return [("message", VStr (lit "If the email exists, a password reset link has been sent."))]
  /\ (first (has_email email) db = None ->
      response (resend_verification_email db email token now)
      = Return [("message", VStr (lit "If the email exists, a verification link has been sent."))])
  /\ (forall u,
        first (has_email email) db = Some u -> User.is_verified u = true ->
        response (resend_verification_email db email token now)
        = Raise (HTTPException HTTP_400_BAD_REQUEST (lit "Email is already verified") [])).
Proof.
  split; [|split].
  - unfold forgot_password. destruct (first (has_email email) db); reflexivity.
  - intros Hnone. unfold resend_verification_email. now rewrite Hnone.
  - intros u Hu Hv. unfold resend_verification_email. now rewrite Hu, Hv.
Qed.

End EnumerationClaims.

(** C6, as stated, fails for [resend_verification_email]: Alice's email
    exists and is verified, the other email is nobody's, and the two
    requests are answered differently, one with an error and one with a
    success. *)
Lemma resend_verification_reveals_verified_account :
  first (has_email (lit "alice@example.com")) sample_users = Some alice
  /\ first (has_email (lit "nobody@example.com")) sample_users = None
  /\ response (@resend_verification_email default_settings sample_users
                 (lit "alice@example.com") (lit "vt-new") 50)
     = Raise (HTTPException HTTP_400_BAD_REQUEST (lit "Email is already verified") [])
  /\ response (@resend_verification_email default_settings sample_users
                 (lit "nobody@example.com") (lit "vt-new") 50)
     = Return [("message", VStr (lit "If the email exists, a verification link has been sent."))]
  /\ response (@resend_verification_email default_settings sample_users
                 (lit "alice@example.com") (lit "vt-new") 50)
     <> response (@resend_verification_email default_settings sample_users
                    (lit "nobody@example.com") (lit "vt-new") 50).
Proof.
  repeat split; try reflexivity. discriminate.
Qed.

(** The account that exists and is not verified is told apart as well: for
    Carol's email the message is not the generic one that nobody's email
    receives, against the comment of the handler that the response must not
    reveal whether the email exists. *)
Lemma resend_verification_reveals_unverified_account :
  first (has_email (lit "carol@example.com")) sample_users = Some carol
  /\ User.is_verified carol = false
  /\ response (@resend_verification_email default_settings sample_users
                 (lit "carol@example.com") (lit "vt-new") 50)
     = Return [("message", VStr (lit "Verification email sent successfully"))]
  /\ response (@resend_verification_email default_settings sample_users
                 (lit "nobody@example.com") (lit "vt-new") 50)
     = Return [("message", VStr (lit "If the email exists, a verification link has been sent."))]
  /\ response (@resend_verification_email default_settings sample_users
                 (lit "carol@example.com") (lit "vt-new") 50)
     <> response (@resend_verification_email default_settings sample_users
                    (lit "nobody@example.com") (lit "vt-new") 50).
Proof.
  repeat split; try reflexivity. discriminate.
Qed.

Lemma anti_enumeration_responses_witness :
  response (@resend_verification_email default_settings sample_users
              (lit "nobody@example.com") (lit "vt-new") 50)
  = Return [("message", VStr (lit "If the email exists, a verification link has been sent."))]
  /\ response (@resend_verification_email default_settings sample_users
                 (lit "alice@example.com") (lit "vt-new") 50)
     = Raise (HTTPException HTTP_400_BAD_REQUEST (lit "Email is already verified") []).
Proof.
  split.
  - destruct (@anti_enumeration_responses default_settings sample_users
                (lit "nobody@example.com") (lit "vt-new") 50) as (_ & Hunknown & _).
    apply Hunknown. reflexivity.
  - destruct (@anti_enumeration_responses default_settings sample_users
                (lit "alice@example.com") (lit "vt-new") 50) as (_ & _ & Hverified).
    apply (Hverified alice); reflexivity.
Defined.

(** ** Token refresh *)

Section RefreshClaims.
Context `{Settings}.

(** C8.  [refresh_token] raises 401 when the presented token's signature
    does not verify, when it is past its expiry, when it is not of the
    refresh kind, and when its subject is no user's id or the id of an
    inactive user.  For a well-signed, unexpired refresh token of an active
    user it returns an access and a refresh token issued at that instant
    for the user. *)
Theorem refresh_token_outcomes
  (db : list User.t) (token : Token) (now : datetime) :
  (signature_valid token = false \/ exp token < now \/ kind token <> refresh ->
   refresh_token db token now
   = Raise (HTTPException HTTP_401_UNAUTHORIZED (lit "Invalid refresh token")
              [("WWW-Authenticate", "Bearer")]))
  /\ (signature_valid token = true -> now <= exp token -> kind token = refresh ->
      (first (has_id (sub token)) db = None
       \/ (exists u, first (has_id (sub token)) db = Some u /\ User.is_active u = false) ->
       refresh_token db token now
       = Raise (HTTPException HTTP_401_UNAUTHORIZED (lit "User not found or inactive") []))
      /\ (forall u,
            first (has_id (sub token)) db = Some u -> User.is_active u = true ->
            refresh_token db token now
            = Return {| access_token := User.create_access_token (str_of_UUID (User.id u)) now;
                        refresh_token_ := User.create_refresh_token (str_of_UUID (User.id u)) now;
                        token_type := lit "bearer";
                        expires_at := now + timedelta_minutes ACCESS_TOKEN_EXPIRE_MINUTES;
                        user := u |}
               /\ User.id u = sub token)).
Proof.
  split.
  - intros Hbad. unfold refresh_token, User.verify_token.
    destruct (signature_valid token); simpl; [|reflexivity].
    destruct (exp token <? now) eqn:Hexp; [reflexivity|].
    destruct (kind token); simpl; [reflexivity|].
    exfalso. apply Z.ltb_ge in Hexp.
    destruct Hbad as [Hs|[Hlate|Hkind]]; [discriminate|lia|now apply Hkind].
  - intros Hsig Hexp Hkind.
    assert (Hverified : User.verify_token token now = Some (sub token)).
    { unfold User.verify_token. rewrite Hsig, Hkind. simpl.
      now rewrite (proj2 (Z.ltb_ge _ _) Hexp). }
    split.
    + unfold refresh_token. rewrite Hverified.
      intros [->|(u & -> & ->)]; reflexivity.
    + intros u Hu Hactive. unfold refresh_token. rewrite Hverified, Hu, Hactive.
      split; [reflexivity|].
      apply first_holds in Hu. unfold has_id in Hu. now apply str_eqb_eq in Hu.
Qed.

End RefreshClaims.

Lemma refresh_token_outcomes_witness :
  @refresh_token default_settings sample_users forged_refresh 500
  = Raise (HTTPException HTTP_401_UNAUTHORIZED (lit "Invalid refresh token")
             [("WWW-Authenticate", "Bearer")])
  /\ @refresh_token default_settings sample_users alice_access 500
     = Raise (HTTPException HTTP_401_UNAUTHORIZED (lit "Invalid refresh token")
                [("WWW-Authenticate", "Bearer")])
  /\ @refresh_token default_settings sample_users bob_refresh 500
     = Raise (HTTPException HTTP_401_UNAUTHORIZED (lit "User not found or inactive") [])
  /\ @refresh_token default_settings sample_users alice_refresh 500
     = Return {| access_token := @User.create_access_token default_settings (lit "u-1") 500;
                 refresh_token_ := @User.create_refresh_token default_settings (lit "u-1") 500;
                 token_type := lit "bearer";
                 expires_at := 500 + timedelta_minutes 30;
                 user := alice |}.
Proof.
  split; [|split; [|split]].
  - destruct (@refresh_token_outcomes default_settings sample_users forged_refresh 500)
      as [Hbad _].
    apply Hbad. left. reflexivity.
  - destruct (@refresh_token_outcomes default_settings sample_users alice_access 500)
      as [Hbad _].
    apply Hbad. right. right. discriminate.
  - destruct (@refresh_token_outcomes default_settings sample_users bob_refresh 500)
      as [_ Hgood].
    assert (Hclock : 500 <= exp bob_refresh) by (vm_compute; discriminate).
    destruct (Hgood eq_refl Hclock eq_refl) as [Hmissing _].
    apply Hmissing. right. exists bob. split; reflexivity.
  - destruct (@refresh_token_outcomes default_settings sample_users alice_refresh 500)
      as [_ Hgood].
    assert (Hclock : 500 <= exp alice_refresh) by (vm_compute; discriminate).
    destruct (Hgood eq_refl Hclock eq_refl) as [_ Hfound].
    destruct (Hfound alice eq_refl eq_refl) as [Hreturned _].
    exact Hreturned.
Defined.

(** ** Calculations *)

Section CalculationFacts.
Context {num : Type} `{Number num}.
Implicit Types (db : list (Calculation.t num)) (c : Calculation.t num).

Lemma is_calculation_spec cid uid c :
  is_calculation cid uid c = true
  <-> Calculation.id c = cid /\ Calculation.user_id c = uid.
Proof.
  unfold is_calculation, owned_by. rewrite andb_true_iff, !str_eqb_eq. tauto.
Qed.

Lemma is_calculation_owned cid uid c :
  is_calculation cid uid c = true -> owned_by uid c = true.
Proof. unfold is_calculation. now intros [_ ?]%andb_true_iff. Qed.

Lemma not_found cid uid db :
  (forall c, In c db -> Calculation.id c = cid -> Calculation.user_id c <> uid) ->
  first (is_calculation cid uid) db = None.
Proof.
  intros Hnone. apply first_absent. intros c Hc.
  destruct (is_calculation cid uid c) eqn:E; [|reflexivity].
  apply is_calculation_spec in E. destruct E as [Hid Huid].
  exfalso. exact (Hnone c Hc Hid Huid).
Qed.

Lemma apply_update_identity upd c :
  Calculation.id (apply_update upd c) = Calculation.id c
  /\ Calculation.user_id (apply_update upd c) = Calculation.user_id c.
Proof.
  unfold apply_update.
  destruct (update_operation upd), (update_operand1 upd), (update_operand2 upd);
    simpl; auto.
Qed.

Lemma calculate_returns c c' :
  Calculation.calculate c = Return c' ->
  exists v,
    Calculation.f (Calculation.operation c) (Calculation.operand1 c)
      (Calculation.operand2 c) = Return v
    /\ c' = Calculation.set_result (Some v) c.
Proof.
  unfold Calculation.calculate.
  destruct (Calculation.f _ _ _) as [v|e]; [|discriminate].
  intros [= <-]. now exists v.
Qed.

(** What [update_calculation] does once the record is found. *)
Lemma update_calculation_found db current_user cid upd c0 :
  first (is_calculation cid (User.id current_user)) db = Some c0 ->
  update_calculation db current_user cid upd
  = match Calculation.calculate (apply_update upd c0) with
    | Raise e => (Raise e, db)
    | Return c' =>
        (Return c',
         update_first (is_calculation cid (User.id current_user)) (fun _ => c') db)
    end.
Proof. intros Hf. unfold update_calculation. now rewrite Hf. Qed.

Lemma updated_is_calculation cid uid upd c0 c' :
  is_calculation cid uid c0 = true ->
  Calculation.calculate (apply_update upd c0) = Return c' ->
  is_calculation cid uid c' = true.
Proof.
  intros Hc0 Hcalc. apply calculate_returns in Hcalc. destruct Hcalc as (v & _ & ->).
  apply is_calculation_spec in Hc0. apply is_calculation_spec. simpl.
  destruct (apply_update_identity upd c0) as [-> ->]. exact Hc0.
Qed.

Lemma others_update_calculation db current_user cid upd :
  others (User.id current_user) (snd (update_calculation db current_user cid upd))
  = others (User.id current_user) db.
Proof.
  destruct (first (is_calculation cid (User.id current_user)) db) as [c0|] eqn:Hf.
  - rewrite (update_calculation_found _ _ _ _ _ Hf).
    destruct (Calculation.calculate (apply_update upd c0)) as [c'|e] eqn:Hcalc;
      [|reflexivity].
    simpl. unfold others. apply filter_update_first.
    + intros x Hx. now rewrite (is_calculation_owned _ _ _ Hx).
    + intros x _.
      rewrite (is_calculation_owned cid _ c'); [reflexivity|].
      eapply updated_is_calculation; [|exact Hcalc]. exact (first_holds _ _ _ Hf).
  - unfold update_calculation. now rewrite Hf.
Qed.

Lemma others_delete_calculation db current_user cid :
  others (User.id current_user) (snd (delete_calculation db current_user cid))
  = others (User.id current_user) db.
Proof.
  unfold delete_calculation.
  destruct (first (is_calculation cid (User.id current_user)) db); [|reflexivity].
  simpl. unfold others. apply filter_delete_first.
  intros x Hx. now rewrite (is_calculation_owned _ _ _ Hx).
Qed.

End CalculationFacts.

Section PageFacts.
Context {A : Type}.

Lemma In_page (rows : list A) (skip limit : nat) (x : A) :
  In x (firstn limit (skipn skip rows)) -> In x rows.
Proof.
  intros Hx.
  rewrite <- (firstn_skipn skip rows). apply in_or_app. right.
  rewrite <- (firstn_skipn limit (skipn skip rows)). apply in_or_app. now left.
Qed.

Lemma offset_limit_nonneg (rows : list A) (skip limit : Z) :
  0 <= skip -> 0 <= limit ->
  offset_limit skip limit rows
  = Some (firstn (Z.to_nat limit) (skipn (Z.to_nat skip) rows)).
Proof.
  intros Hs Hl. unfold offset_limit.
  now rewrite (proj2 (Z.ltb_ge _ _) Hs), (proj2 (Z.ltb_ge _ _) Hl).
Qed.

Lemma offset_limit_In (rows page : list A) (skip limit : Z) (x : A) :
  offset_limit skip limit rows = Some page -> In x page -> In x rows.
Proof.
  unfold offset_limit. destruct (_ || _); [discriminate|].
  intros [= <-]. apply In_page.
Qed.

End PageFacts.

Section CalculationClaims.
Context {num : Type} `{Number num}.
Implicit Types (db : list (Calculation.t num)) (c : Calculation.t num).

(** C3.  When no calculation has the id, or the one that has it belongs to
    another user, [get_calculation], [update_calculation] and
    [delete_calculation] all raise the same 404 and leave the table as it
    is.  A record that [get_calculation], [update_calculation] or
    [list_calculations] returns belongs to the requesting user, and after
    an update, a delete or a create the rows of the other users are what
    they were. *)
Theorem calculations_scoped_by_owner db (current_user : User.t) (cid : UUID)
  (upd : CalculationUpdate num) :
  let uid := User.id current_user in
  ((forall c, In c db -> Calculation.id c = cid -> Calculation.user_id c <> uid) ->
   get_calculation db current_user cid
     = Raise (HTTPException HTTP_404_NOT_FOUND (lit "Calculation not found") [])
   /\ update_calculation db current_user cid upd
      = (Raise (HTTPException HTTP_404_NOT_FOUND (lit "Calculation not found") []), db)
   /\ delete_calculation db current_user cid
      = (Raise (HTTPException HTTP_404_NOT_FOUND (lit "Calculation not found") []), db))
  /\ (forall c, get_calculation db current_user cid = Return c ->
        In c db /\ Calculation.id c = cid /\ Calculation.user_id c = uid)
  /\ (forall c, fst (update_calculation db current_user cid upd) = Return c ->
        Calculation.id c = cid /\ Calculation.user_id c = uid)
  /\ (forall skip limit page,
        list_calculations db current_user skip limit = Return page ->
        forall c, In c page -> In c db /\ Calculation.user_id c = uid)
  /\ others uid (snd (update_calculation db current_user cid upd)) = others uid db
  /\ others uid (snd (delete_calculation db current_user cid)) = others uid db
  /\ (forall calculation new_id now,
        others uid (snd (create_calculation db current_user calculation new_id now))
        = others uid db).
Proof.
  intros uid. repeat apply conj.
  - intros Hnone. apply not_found in Hnone. fold uid.
    unfold get_calculation, update_calculation, delete_calculation.
    fold uid. rewrite Hnone. auto.
  - intros c. unfold get_calculation. fold uid.
    destruct (first (is_calculation cid uid) db) as [c0|] eqn:Hf; [|discriminate].
    intros [= <-]. split; [exact (first_In _ _ _ Hf)|].
    apply is_calculation_spec. exact (first_holds _ _ _ Hf).
  - intros c.
    destruct (first (is_calculation cid uid) db) as [c0|] eqn:Hf.
    + rewrite (update_calculation_found _ _ _ _ _ Hf).
      destruct (Calculation.calculate (apply_update upd c0)) as [c'|e] eqn:Hcalc;
        simpl; [|discriminate].
      intros [= <-]. apply is_calculation_spec.
      eapply updated_is_calculation; [|exact Hcalc]. exact (first_holds _ _ _ Hf).
    + unfold update_calculation. fold uid. rewrite Hf. discriminate.
  - intros skip limit page. unfold list_calculations. fold uid.
    destruct (offset_limit skip limit (filter (owned_by uid) db)) as [l|] eqn:Hpage;
      [|discriminate].
    intros [= <-] c Hc. apply (offset_limit_In _ _ _ _ _ Hpage) in Hc.
    apply filter_In in Hc. destruct Hc as [Hin Hown]. split; [exact Hin|].
    unfold owned_by in Hown. now apply str_eqb_eq in Hown.
  - apply others_update_calculation.
  - apply others_delete_calculation.
  - intros calculation new_id now. unfold create_calculation.
    destruct (Calculation.calculate _) as [c'|e] eqn:Hcalc; [|reflexivity].
    apply calculate_returns in Hcalc. destruct Hcalc as (v & _ & ->).
    simpl. unfold others. rewrite filter_app. simpl.
    unfold owned_by at 2. simpl. fold uid. rewrite str_eqb_refl. apply app_nil_r.
Qed.

(** C4.  Whatever fields an update supplies, none included, when
    [update_calculation] succeeds the record it returns holds as result
    [f] of its operation and operands as they now are, and that record is
    the one stored under the id for the user. *)
Theorem update_recomputes_result db (current_user : User.t) (cid : UUID)
  (upd : CalculationUpdate num) c db' :
  update_calculation db current_user cid upd = (Return c, db') ->
  (exists v,
     Calculation.f (Calculation.operation c) (Calculation.operand1 c)
       (Calculation.operand2 c) = Return v
     /\ Calculation.result c = Some v)
  /\ first (is_calculation cid (User.id current_user)) db' = Some c.
Proof.
  destruct (first (is_calculation cid (User.id current_user)) db) as [c0|] eqn:Hf.
  - rewrite (update_calculation_found _ _ _ _ _ Hf).
    destruct (Calculation.calculate (apply_update upd c0)) as [c'|e] eqn:Hcalc;
      [|discriminate].
    intros [= <- <-]. split.
    + destruct (calculate_returns _ _ Hcalc) as (v & Hv & ->).
      exists v. simpl. split; [exact Hv|reflexivity].
    + apply (first_update_same _ (fun _ => c') db c0 Hf).
      eapply updated_is_calculation; [|exact Hcalc]. exact (first_holds _ _ _ Hf).
  - unfold update_calculation. rewrite Hf. discriminate.
Qed.

End CalculationClaims.

Lemma calculations_scoped_by_owner_witness :
  @get_calculation Q sample_calculations carol (lit "c-1")
  = Raise (HTTPException HTTP_404_NOT_FOUND (lit "Calculation not found") [])
  /\ @update_calculation Q Q_number sample_calculations carol (lit "c-1") no_change
     = (Raise (HTTPException HTTP_404_NOT_FOUND (lit "Calculation not found") []),
        sample_calculations)
  /\ @delete_calculation Q sample_calculations carol (lit "c-1")
     = (Raise (HTTPException HTTP_404_NOT_FOUND (lit "Calculation not found") []),
        sample_calculations).
Proof.
  destruct (@calculations_scoped_by_owner Q Q_number sample_calculations carol
              (lit "c-1") no_change) as [Hnotfound _].
  apply Hnotfound.
  intros c [<-|[<-|[<-|[]]]]; simpl; intros Hid; discriminate.
Defined.

Lemma update_recomputes_result_witness :
  exists c db',
    @update_calculation Q Q_number sample_calculations alice (lit "c-3") no_change
    = (Return c, db')
    /\ Calculation.result calc3 = Some 0%Q
    /\ Calculation.result c = Some (20 # 1)%Q
    /\ first (is_calculation (lit "c-3") (User.id alice)) db' = Some c.
Proof.
  eexists. eexists. split; [reflexivity|]. split; [reflexivity|].
  destruct (@update_recomputes_result Q Q_number sample_calculations alice
              (lit "c-3") no_change _ _ eq_refl) as [(v & Hv & Hresult) Hstored].
  split; [|exact Hstored].
  rewrite Hresult. injection Hv as <-. reflexivity.
Defined.

Section CreateAndListClaims.
Context {num : Type} `{Number num}.
Implicit Types (db : list (Calculation.t num)) (c : Calculation.t num).


(** C9, as amended.  For an offset and a limit from 0 and under [2 ^ 63],
    [list_calculations] returns, of the requesting user's rows in the
    order in which the store returns them, those at positions [skip] to
    [skip + limit - 1] (fewer when the rows run out), and only rows of
    that user; the same call on the same table returns the same page. *)
Theorem list_calculations_pages db (current_user : User.t) (skip limit : Z) :
  0 <= skip < 2 ^ 63 -> 0 <= limit < 2 ^ 63 ->
  let uid := User.id current_user in
  let mine := filter (owned_by uid) db in
  exists page,
    list_calculations db current_user skip limit = Return page
    /\ page = firstn (Z.to_nat limit) (skipn (Z.to_nat skip) mine)
    /\ (forall i, (i < Z.to_nat limit)%nat ->
          nth_error page i = nth_error mine (Z.to_nat skip + i))
    /\ List.length page = Nat.min (Z.to_nat limit) (List.length mine - Z.to_nat skip)
    /\ (forall c, In c page -> Calculation.user_id c = uid)
    /\ (forall page', list_calculations db current_user skip limit = Return page' ->
          page' = page).
Proof.
  intros [Hskip _] [Hlimit _] uid mine.
  exists (firstn (Z.to_nat limit) (skipn (Z.to_nat skip) mine)).
  repeat apply conj.
  - unfold list_calculations. fold uid. fold mine.
    now rewrite (offset_limit_nonneg _ _ _ Hskip Hlimit).
  - reflexivity.
  - intros i Hi. rewrite nth_error_firstn.
    rewrite (proj2 (Nat.ltb_lt _ _) Hi). apply nth_error_skipn.
  - now rewrite length_firstn, length_skipn.
  - intros c Hc. apply In_page in Hc. apply filter_In in Hc.
    destruct Hc as [_ Hown]. unfold owned_by in Hown. now apply str_eqb_eq in Hown.
  - intros page'. unfold list_calculations. fold uid. fold mine.
    rewrite (offset_limit_nonneg _ _ _ Hskip Hlimit). now intros [= <-].
Qed.

(** C10.  The stats response holds, under [user], the requesting user's id,
    username and email; under [total_calculations], the number of the
    user's calculations; and under [operations], for each operation that
    occurs among them, the number of those that have it. *)
Theorem stats_echo_user db (current_user : User.t) :
  let uid := User.id current_user in
  get "user" (get_calculation_stats db current_user)
    = Some (VDict [("id", VStr (str_of_UUID uid));
                   ("username", VStr (User.username current_user));
                   ("email", VStr (User.email current_user))])
  /\ get "total_calculations" (get_calculation_stats db current_user)
     = Some (VInt (Z.of_nat (List.length (filter (owned_by uid) db))))
  /\ exists operations_dict,
       get "operations" (get_calculation_stats db current_user)
         = Some (VDict operations_dict)
       /\ forall op,
            let n := count (has_operation op) (filter (owned_by uid) db) in
            get (OperationType.name op) operations_dict
            = if 0 <? n then Some (VInt n) else None.
Proof.
  intros uid. split; [reflexivity|]. split; [reflexivity|].
  eexists. split; [reflexivity|].
  intros op n. subst n. unfold count_by_operation. fold uid.
  set (mine := filter (owned_by uid) db).
  unfold OperationType.all. simpl map.
  destruct op; simpl;
    destruct (0 <? count (has_operation OperationType.add) mine);
    destruct (0 <? count (has_operation OperationType.subtract) mine);
    destruct (0 <? count (has_operation OperationType.multiply) mine);
    destruct (0 <? count (has_operation OperationType.divide) mine);
    reflexivity.
Qed.

End CreateAndListClaims.



(** The two placements of a rewritten row hold the same rows, and
    [update_calculation] answers the same with either. *)
Lemma update_last_permutation {A : Type} (p : A -> bool) (f : A -> A) (rows : list A) :
  Permutation (update_last p f rows) (update_first p f rows).
Proof.
  induction rows as [|x rest IH]; simpl; [constructor|].
  destruct (p x).
  - symmetry. apply Permutation_cons_append.
  - now constructor.
Qed.

Lemma update_calculation_stored_agrees {num : Type} `{Number num}
  (db : list (Calculation.t num)) (u : User.t) (cid : UUID)
  (upd : CalculationUpdate num) :
  fst (update_calculation_stored db u cid upd) = fst (update_calculation db u cid upd)
  /\ Permutation (snd (update_calculation_stored db u cid upd))
       (snd (update_calculation db u cid upd)).
Proof.
  unfold update_calculation_stored, update_calculation.
  destruct (first (is_calculation cid (User.id u)) db); [|split; reflexivity].
  destruct (Calculation.calculate _); simpl; split; try reflexivity.
  apply update_last_permutation.
Qed.

(** C9, as stated, fails on the order.  Alice's calculations were inserted
    as c-1, c-3, c-4.  Once she has updated c-1 the store holds its new
    version behind the others, and her listing begins with c-3: the rows
    are not in insertion order. *)
Lemma listing_after_update_not_in_insertion_order :
  let db' :=
    snd (@update_calculation_stored Q Q_number more_calculations alice
           (lit "c-1") to_subtract) in
  map Calculation.id (filter (owned_by (User.id alice)) more_calculations)
    = [lit "c-1"; lit "c-3"; lit "c-4"]
  /\ (exists page,
        @list_calculations Q db' alice 0 100 = Return page
        /\ map Calculation.id page = [lit "c-3"; lit "c-4"; lit "c-1"])
  /\ (exists page,
        @list_calculations Q db' alice 0 1 = Return page
        /\ map Calculation.id page = [lit "c-3"]
        /\ map Calculation.id page <> [lit "c-1"]).
Proof.
  split; [reflexivity|]. split.
  - eexists. split; reflexivity.
  - eexists. split; [reflexivity|]. split; [reflexivity|discriminate].
Qed.

Lemma list_calculations_pages_witness :
  @list_calculations Q sample_calculations alice 1 1 = Return [calc3]
  /\ @list_calculations Q sample_calculations alice 0 100 = Return [calc1; calc3].
Proof.
  split.
  - destruct (@list_calculations_pages Q sample_calculations alice 1 1)
      as (page & Hpage & -> & _); [split; [discriminate|reflexivity]..|].
    exact Hpage.
  - destruct (@list_calculations_pages Q sample_calculations alice 0 100)
      as (page & Hpage & -> & _); [split; [discriminate|reflexivity]..|].
    exact Hpage.
Defined.

(** * Further properties of the handlers *)

(** ** More on queries *)

Section QueryFrameFacts.
Context {A : Type}.
Implicit Types (p q : A -> bool) (f : A -> A) (rows : list A).

Lemma first_conj_filter p q rows :
  first (fun x => p x && q x) rows = first p (filter q rows).
Proof.
  unfold first. induction rows as [|x rest IH]; simpl; [reflexivity|].
  destruct (q x); simpl.
  - rewrite andb_true_r. destruct (p x); [reflexivity|exact IH].
  - rewrite andb_false_r. exact IH.
Qed.

Lemma first_app_one p rows r :
  first p (rows ++ [r])
  = match first p rows with
    | Some x => Some x
    | None => if p r then Some r else None
    end.
Proof.
  unfold first. induction rows as [|x rest IH]; simpl; [reflexivity|].
  destruct (p x); [reflexivity|exact IH].
Qed.


Lemma first_delete_other p q rows :
  (forall x, p x = true -> q x = false) ->
  first q (delete_first p rows) = first q rows.
Proof.
  intros Hpq. unfold first. induction rows as [|x rest IH]; simpl; [reflexivity|].
  destruct (p x) eqn:Hpx; simpl.
  - now rewrite (Hpq x Hpx).
  - now rewrite IH.
Qed.

Lemma length_update_first p f rows :
  List.length (update_first p f rows) = List.length rows.
Proof.
  induction rows as [|x rest IH]; simpl; [reflexivity|].
  destruct (p x); simpl; [reflexivity|now rewrite IH].
Qed.

Lemma length_delete_first p rows r :
  first p rows = Some r ->
  S (List.length (delete_first p rows)) = List.length rows.
Proof.
  unfold first. induction rows as [|x rest IH]; simpl; [discriminate|].
  destruct (p x); [reflexivity|]. intros Hf. simpl. now rewrite IH.
Qed.

Lemma map_update_first {B : Type} (g : A -> B) p f rows :
  (forall x, p x = true -> g (f x) = g x) ->
  map g (update_first p f rows) = map g rows.
Proof.
  intros Hg. induction rows as [|x rest IH]; simpl; [reflexivity|].
  destruct (p x) eqn:Hpx; simpl; [now rewrite Hg|now rewrite IH].
Qed.

Lemma In_delete_first p rows x : In x (delete_first p rows) -> In x rows.
Proof.
  induction rows as [|y rest IH]; simpl; [tauto|].
  destruct (p y); simpl; [tauto|]. intros [->|Hin]; auto.
Qed.

(** When the rows a query matches share a key and keys are unique, removing
    the first match leaves no match. *)
Lemma delete_first_unique {B : Type} (key : A -> B) p rows :
  (forall x y, p x = true -> p y = true -> key x = key y) ->
  NoDup (map key rows) ->
  forall y, In y (delete_first p rows) -> p y = false.
Proof.
  intros Hkey. induction rows as [|x rest IH]; simpl; [tauto|].
  intros Hnodup y. inversion Hnodup as [|k ks Hnotin Hrest]; subst.
  destruct (p x) eqn:Hpx.
  - intros Hy. destruct (p y) eqn:Hpy; [|reflexivity].
    exfalso. apply Hnotin. rewrite (Hkey x y Hpx Hpy). now apply in_map.
  - simpl. intros [<-|Hy]; [exact Hpx|]. now apply IH.
Qed.

Lemma NoDup_delete_first {B : Type} (key : A -> B) p rows :
  NoDup (map key rows) -> NoDup (map key (delete_first p rows)).
Proof.
  induction rows as [|x rest IH]; simpl; [auto|].
  intros Hnodup. inversion Hnodup as [|k ks Hnotin Hrest]; subst.
  destruct (p x); [exact Hrest|]. simpl. constructor; [|now apply IH].
  intros Hin. apply Hnotin. apply in_map_iff in Hin. destruct Hin as (y & <- & Hy).
  apply in_map. now apply In_delete_first in Hy.
Qed.

(** Rewriting the found row with itself changes nothing. *)
Lemma update_first_same_row p rows r :
  first p rows = Some r -> update_first p (fun _ => r) rows = rows.
Proof.
  unfold first. induction rows as [|x rest IH]; simpl; [discriminate|].
  destruct (p x).
  - now intros [= ->].
  - intros Hf. now rewrite IH.
Qed.

(** The row a handler computes from the one it found is a function of that
    row. *)
Lemma update_first_found p f rows r :
  first p rows = Some r ->
  update_first p (fun _ => f r) rows = update_first p f rows.
Proof.
  unfold first. induction rows as [|x rest IH]; simpl; [discriminate|].
  destruct (p x).
  - now intros [= ->].
  - intros Hf. now rewrite IH.
Qed.

(** A query whose answer on a row survives the rewrite finds, after the
    rewrite, the row it found before or that row rewritten. *)
Lemma first_update_preserved p q f rows :
  (forall x, q (f x) = q x) ->
  match first q rows, first q (update_first p f rows) with
  | None, None => True
  | Some r, Some r' => r' = r \/ r' = f r
  | _, _ => False
  end.
Proof.
  intros Hq. unfold first. induction rows as [|x rest IH]; simpl; [exact I|].
  destruct (p x) eqn:Hpx; simpl.
  - rewrite Hq. destruct (q x); [now right|].
    destruct (find q rest); auto.
  - destruct (q x); [now left|exact IH].
Qed.

End QueryFrameFacts.

(** ** Calculations: round trips, frames and isolation *)

Section CalculationFrameFacts.
Context {num : Type} `{Number num}.
Implicit Types (db : list (Calculation.t num)) (c : Calculation.t num).

Lemma create_calculation_returned db (author : User.t) calculation new_id now c db' :
  create_calculation db author calculation new_id now = (Return c, db') ->
  db' = db ++ [c]
  /\ Calculation.id c = new_id
  /\ Calculation.user_id c = User.id author.
Proof.
  unfold create_calculation.
  destruct (Calculation.calculate _) as [c'|e] eqn:Hcalc; [|discriminate].
  intros [= <- <-]. apply calculate_returns in Hcalc.
  destruct Hcalc as (v & _ & ->). simpl. auto.
Qed.

Lemma delete_calculation_returned db (u : User.t) cid db' :
  delete_calculation db u cid = (Return tt, db') ->
  exists c0,
    first (is_calculation cid (User.id u)) db = Some c0
    /\ db' = delete_first (is_calculation cid (User.id u)) db.
Proof.
  unfold delete_calculation.
  destruct (first (is_calculation cid (User.id u)) db) as [c0|]; [|discriminate].
  intros [= <-]. now exists c0.
Qed.

Lemma update_calculation_returned db (u : User.t) cid upd c db' :
  update_calculation db u cid upd = (Return c, db') ->
  exists c0,
    first (is_calculation cid (User.id u)) db = Some c0
    /\ Calculation.calculate (apply_update upd c0) = Return c
    /\ db' = update_first (is_calculation cid (User.id u)) (fun _ => c) db.
Proof.
  destruct (first (is_calculation cid (User.id u)) db) as [c0|] eqn:Hf.
  - rewrite (update_calculation_found _ _ _ _ _ Hf).
    destruct (Calculation.calculate (apply_update upd c0)) as [c'|e] eqn:Hcalc;
      [|discriminate].
    intros [= <- <-]. now exists c0.
  - unfold update_calculation. rewrite Hf. discriminate.
Qed.

(** A request for another id, or by another user, does not match the rows
    that a request for [cid] by [uid] matches. *)
Lemma is_calculation_apart cid uid cid' uid' c :
  cid' <> cid \/ uid' <> uid ->
  is_calculation cid uid c = true -> is_calculation cid' uid' c = false.
Proof.
  intros Hapart Hc. apply is_calculation_spec in Hc. destruct Hc as [Hid Huid].
  destruct (is_calculation cid' uid' c) eqn:E; [|reflexivity].
  apply is_calculation_spec in E. destruct E as [Hid' Huid'].
  exfalso. destruct Hapart as [Hd|Hd]; apply Hd; congruence.
Qed.

Lemma owned_by_apart uid uid' c :
  uid' <> uid -> owned_by uid c = true -> owned_by uid' c = false.
Proof.
  unfold owned_by. intros Hne Hc. apply str_eqb_eq in Hc.
  apply str_eqb_neq. congruence.
Qed.

End CalculationFrameFacts.

Section CalculationRoundTrips.
Context {num : Type} `{Number num}.
Implicit Types (db : list (Calculation.t num)) (c : Calculation.t num).

(** X1.  When [create_calculation] succeeds under an id that no row of the
    author bears yet, [get_calculation] by the author for that id returns
    the very record that was created; a request for another id, or by
    another user, is answered as before the create. *)
Theorem create_then_get db (author : User.t) calculation new_id now c db' :
  create_calculation db author calculation new_id now = (Return c, db') ->
  first (is_calculation new_id (User.id author)) db = None ->
  get_calculation db' author new_id = Return c
  /\ forall (reader : User.t) cid,
       cid <> new_id \/ User.id reader <> User.id author ->
       get_calculation db' reader cid = get_calculation db reader cid.
Proof.
  intros Hcreate Hfresh.
  destruct (create_calculation_returned _ _ _ _ _ _ _ Hcreate) as (-> & Hid & Huid).
  assert (Hc : is_calculation new_id (User.id author) c = true)
    by (apply is_calculation_spec; auto).
  split.
  - unfold get_calculation. rewrite first_app_one, Hfresh, Hc. reflexivity.
  - intros reader cid Hapart. unfold get_calculation. rewrite first_app_one.
    rewrite (is_calculation_apart _ _ _ _ _ Hapart Hc).
    now destruct (first (is_calculation cid (User.id reader)) db).
Qed.

(** X2.  On a table whose ids are unique, once [delete_calculation] has
    succeeded the record is gone: [get_calculation] and a second
    [delete_calculation] for the id raise 404.  The delete removes exactly
    one row, keeps the ids unique, and a request for another id, or by
    another user, is answered as before. *)
Theorem delete_then_get db (u : User.t) cid db' :
  NoDup (map Calculation.id db) ->
  delete_calculation db u cid = (Return tt, db') ->
  get_calculation db' u cid = Raise NotFound
  /\ delete_calculation db' u cid = (Raise NotFound, db')
  /\ S (List.length db') = List.length db
  /\ NoDup (map Calculation.id db')
  /\ forall (reader : User.t) cid',
       cid' <> cid \/ User.id reader <> User.id u ->
       get_calculation db' reader cid' = get_calculation db reader cid'.
Proof.
  intros Hnodup Hdelete.
  destruct (delete_calculation_returned _ _ _ _ Hdelete) as (c0 & Hf & ->).
  assert (Hgone : first (is_calculation cid (User.id u))
                    (delete_first (is_calculation cid (User.id u)) db) = None).
  { apply first_absent.
    apply (delete_first_unique Calculation.id _ _); [|exact Hnodup].
    intros x y Hx Hy. apply is_calculation_spec in Hx, Hy.
    destruct Hx as [-> _], Hy as [-> _]. reflexivity. }
  repeat apply conj.
  - unfold get_calculation. now rewrite Hgone.
  - unfold delete_calculation. now rewrite Hgone.
  - exact (length_delete_first _ _ _ Hf).
  - now apply NoDup_delete_first.
  - intros reader cid' Hapart. unfold get_calculation.
    rewrite first_delete_other; [reflexivity|].
    intros x. apply is_calculation_apart. exact Hapart.
Qed.


(** X4.  An update that leaves the record dividing by a zero second operand
    raises [DivisionByZero] and commits nothing: the table, and with it the
    record's operands and result, are as before. *)
Theorem update_division_by_zero db (u : User.t) cid upd c0 :
  get_calculation db u cid = Return c0 ->
  supplied (update_operation upd) (Calculation.operation c0) = OperationType.divide ->
  num_is_zero (supplied (update_operand2 upd) (Calculation.operand2 c0)) = true ->
  update_calculation db u cid upd = (Raise DivisionByZero, db)
  /\ get_calculation (snd (update_calculation db u cid upd)) u cid = Return c0.
Proof.
  intros Hget Hop Hzero.
  assert (Hf : first (is_calculation cid (User.id u)) db = Some c0).
  { unfold get_calculation in Hget.
    destruct (first (is_calculation cid (User.id u)) db); [|discriminate].
    now injection Hget as ->. }
  assert (Hupdate : update_calculation db u cid upd = (Raise DivisionByZero, db)).
  { rewrite (update_calculation_found _ _ _ _ _ Hf).
    unfold Calculation.calculate.
    assert (Hop' : Calculation.operation (apply_update upd c0) = OperationType.divide).
    { rewrite <- Hop. unfold apply_update, supplied.
      destruct (update_operation upd), (update_operand1 upd), (update_operand2 upd);
        reflexivity. }
    assert (Hb' : Calculation.operand2 (apply_update upd c0)
                  = supplied (update_operand2 upd) (Calculation.operand2 c0)).
    { unfold apply_update, supplied.
      destruct (update_operation upd), (update_operand1 upd), (update_operand2 upd);
        reflexivity. }
    rewrite Hop', Hb'. simpl. now rewrite Hzero. }
  split; [exact Hupdate|]. rewrite Hupdate. exact Hget.
Qed.

(** X5.  [update_calculation] is idempotent: repeating a successful update
    with the same fields returns the same record and leaves the same
    table. *)
Theorem update_idempotent db (u : User.t) cid upd c db' :
  update_calculation db u cid upd = (Return c, db') ->
  update_calculation db' u cid upd = (Return c, db').
Proof.
  intros Hupdate.
  destruct (update_calculation_returned _ _ _ _ _ _ Hupdate) as (c0 & Hf & Hcalc & ->).
  assert (Hc : is_calculation cid (User.id u) c = true).
  { eapply updated_is_calculation; [exact (first_holds _ _ _ Hf)|exact Hcalc]. }
  assert (Hf' : first (is_calculation cid (User.id u))
                  (update_first (is_calculation cid (User.id u)) (fun _ => c) db)
                = Some c)
    by (apply (first_update_same _ (fun _ => c) db c0 Hf Hc)).
  rewrite (update_calculation_found _ _ _ _ _ Hf').
  assert (Hagain : Calculation.calculate (apply_update upd c) = Return c).
  { destruct (calculate_returns _ _ Hcalc) as (v & Hv & ->).
    unfold Calculation.calculate.
    assert (Hfix : apply_update upd (Calculation.set_result (Some v) (apply_update upd c0))
                   = Calculation.set_result (Some v) (apply_update upd c0)).
    { unfold apply_update.
      destruct (update_operation upd), (update_operand1 upd), (update_operand2 upd);
        reflexivity. }
    rewrite Hfix. simpl. rewrite Hv. reflexivity. }
  rewrite Hagain. now rewrite (update_first_same_row _ _ _ Hf').
Qed.

End CalculationRoundTrips.

Section CalculationIsolation.
Context {num : Type} `{Number num}.
Implicit Types (db : list (Calculation.t num)) (c : Calculation.t num).

(** The three read routes look at the reader's rows only. *)
Lemma same_rows_same_view (reader : User.t) db db' :
  filter (owned_by (User.id reader)) db' = filter (owned_by (User.id reader)) db ->
  same_view reader db db'.
Proof.
  intros Hrows. repeat apply conj.
  - intros cid. unfold get_calculation, is_calculation.
    now rewrite !first_conj_filter, Hrows.
  - intros skip limit. unfold list_calculations. now rewrite Hrows.
  - unfold get_calculation_stats, count_by_operation, count. now rewrite Hrows.
Qed.

Lemma rows_after_create (reader author : User.t) db calculation new_id now :
  User.id reader <> User.id author ->
  filter (owned_by (User.id reader))
    (snd (create_calculation db author calculation new_id now))
  = filter (owned_by (User.id reader)) db.
Proof.
  intros Hne. unfold create_calculation.
  destruct (Calculation.calculate _) as [c'|e] eqn:Hcalc; [|reflexivity].
  apply calculate_returns in Hcalc. destruct Hcalc as (v & _ & ->).
  simpl. rewrite filter_app. simpl. unfold owned_by at 2. simpl.
  assert (Hno : str_eqb (User.id author) (User.id reader) = false)
    by (apply str_eqb_neq; congruence).
  rewrite Hno. apply app_nil_r.
Qed.

Lemma rows_after_update (reader author : User.t) db cid upd :
  User.id reader <> User.id author ->
  filter (owned_by (User.id reader)) (snd (update_calculation db author cid upd))
  = filter (owned_by (User.id reader)) db.
Proof.
  intros Hne.
  destruct (first (is_calculation cid (User.id author)) db) as [c0|] eqn:Hf.
  - rewrite (update_calculation_found _ _ _ _ _ Hf).
    destruct (Calculation.calculate (apply_update upd c0)) as [c'|e] eqn:Hcalc;
      [|reflexivity].
    simpl. apply filter_update_first.
    + intros x Hx. apply (owned_by_apart (User.id author)); [exact Hne|].
      exact (is_calculation_owned _ _ _ Hx).
    + intros x _. apply (owned_by_apart (User.id author)); [exact Hne|].
      apply (is_calculation_owned cid).
      eapply updated_is_calculation; [exact (first_holds _ _ _ Hf)|exact Hcalc].
  - unfold update_calculation. now rewrite Hf.
Qed.

Lemma rows_after_delete (reader author : User.t) db cid :
  User.id reader <> User.id author ->
  filter (owned_by (User.id reader)) (snd (delete_calculation db author cid))
  = filter (owned_by (User.id reader)) db.
Proof.
  intros Hne. unfold delete_calculation.
  destruct (first (is_calculation cid (User.id author)) db); [|reflexivity].
  simpl. apply filter_delete_first.
  intros x Hx. apply (owned_by_apart (User.id author)); [exact Hne|].
  exact (is_calculation_owned _ _ _ Hx).
Qed.

(** X6.  Whatever another user creates, updates or deletes, with whatever
    outcome, a reader's view of the table is untouched: each
    [get_calculation], each [list_calculations] page and the
    [get_calculation_stats] response of the reader are the same before and
    after. *)
Theorem writes_invisible_to_other_users (reader author : User.t) db
  calculation new_id now cid upd :
  User.id reader <> User.id author ->
  same_view reader db (snd (create_calculation db author calculation new_id now))
  /\ same_view reader db (snd (update_calculation db author cid upd))
  /\ same_view reader db (snd (delete_calculation db author cid)).
Proof.
  intros Hne. split; [|split]; apply same_rows_same_view.
  - now apply rows_after_create.
  - now apply rows_after_update.
  - now apply rows_after_delete.
Qed.

End CalculationIsolation.

Section Pagination.
Context {A : Type}.

Lemma firstn_add (a b : nat) (rows : list A) :
  firstn a rows ++ firstn b (skipn a rows) = firstn (a + b) rows.
Proof.
  revert rows. induction a as [|a IH]; intros rows; simpl; [reflexivity|].
  destruct rows as [|x rest]; simpl.
  - now rewrite firstn_nil.
  - now rewrite IH.
Qed.

Lemma skipn_add (a b : nat) (rows : list A) :
  skipn (a + b) rows = skipn b (skipn a rows).
Proof.
  revert rows. induction a as [|a IH]; intros rows; simpl; [reflexivity|].
  destruct rows as [|x rest]; simpl; [now rewrite skipn_nil|apply IH].
Qed.

End Pagination.

Section CalculationPages.
Context {num : Type} `{Number num}.
Implicit Types (db : list (Calculation.t num)) (c : Calculation.t num).

(** X7.  Consecutive pages tile the listing: for an offset and two limits
    that are not negative and whose sums stay under [2 ^ 63], the page of
    [a] rows at [skip] followed by the page of [b] rows at [skip + a] is
    the page of [a + b] rows at [skip].  From offset 0, a limit under
    [2 ^ 63] that is not less than the number of the user's rows returns
    all of them. *)
Theorem consecutive_pages_tile db (u : User.t) (skip a b : Z) :
  0 <= skip -> 0 <= a -> 0 <= b ->
  skip + a < 2 ^ 63 -> a + b < 2 ^ 63 ->
  (exists page1 page2,
     list_calculations db u skip a = Return page1
     /\ list_calculations db u (skip + a) b = Return page2
     /\ list_calculations db u skip (a + b) = Return (page1 ++ page2))
  /\ (count (owned_by (User.id u)) db <= a ->
      list_calculations db u 0 a = Return (filter (owned_by (User.id u)) db)).
Proof.
  intros Hskip Ha Hb _ _. unfold list_calculations.
  set (mine := filter (owned_by (User.id u)) db). split.
  - rewrite !offset_limit_nonneg by lia.
    eexists. eexists. split; [reflexivity|]. split; [reflexivity|].
    f_equal. rewrite !Z2Nat.inj_add by lia.
    rewrite skipn_add. symmetry. apply firstn_add.
  - intros Hall. rewrite offset_limit_nonneg by lia. simpl.
    f_equal. apply firstn_all2. unfold count in Hall. fold mine in Hall. lia.
Qed.

Lemma counts_partition (rows : list (Calculation.t num)) :
  count (has_operation OperationType.add) rows
  + count (has_operation OperationType.subtract) rows
  + count (has_operation OperationType.multiply) rows
  + count (has_operation OperationType.divide) rows
  = Z.of_nat (List.length rows).
Proof.
  unfold count. induction rows as [|x rest IH]; [reflexivity|].
  assert (Hstep : forall op,
            Z.of_nat (List.length (filter (has_operation op) (x :: rest)))
            = (if OperationType.eqb (Calculation.operation x) op then 1 else 0)
              + Z.of_nat (List.length (filter (has_operation op) rest))).
  { intros op. simpl. unfold has_operation at 1.
    destruct (OperationType.eqb (Calculation.operation x) op); simpl List.length; lia. }
  rewrite !Hstep. simpl List.length.
  destruct (Calculation.operation x); simpl OperationType.eqb; lia.
Qed.

Lemma count_nonneg (p : Calculation.t num -> bool) (rows : list (Calculation.t num)) :
  0 <= count p rows.
Proof. unfold count. lia. Qed.

(** X8.  In every stats response the per-operation counts add up to
    [total_calculations], and that total is the number of rows the user's
    full listing returns. *)
Theorem stats_counts_add_up db (u : User.t) :
  exists total operations_dict,
    get "total_calculations" (get_calculation_stats db u) = Some (VInt total)
    /\ get "operations" (get_calculation_stats db u) = Some (VDict operations_dict)
    /\ sum_values operations_dict = total
    /\ exists page,
         list_calculations db u 0 total = Return page
         /\ Z.of_nat (List.length page) = total.
Proof.
  eexists. eexists. split; [reflexivity|]. split; [reflexivity|].
  set (mine := filter (owned_by (User.id u)) db).
  assert (Htotal : count (owned_by (User.id u)) db = Z.of_nat (List.length mine))
    by reflexivity.
  split.
  - unfold count_by_operation. fold mine. rewrite Htotal, <- counts_partition.
    unfold OperationType.all. simpl map.
    pose proof (count_nonneg (has_operation OperationType.add) mine).
    pose proof (count_nonneg (has_operation OperationType.subtract) mine).
    pose proof (count_nonneg (has_operation OperationType.multiply) mine).
    pose proof (count_nonneg (has_operation OperationType.divide) mine).
    simpl.
    destruct (0 <? count (has_operation OperationType.add) mine) eqn:E1;
    destruct (0 <? count (has_operation OperationType.subtract) mine) eqn:E2;
    destruct (0 <? count (has_operation OperationType.multiply) mine) eqn:E3;
    destruct (0 <? count (has_operation OperationType.divide) mine) eqn:E4;
    simpl;
    repeat match goal with
           | E : (0 <? _) = false |- _ => apply Z.ltb_ge in E
           end; lia.
  - exists mine. split.
    + unfold list_calculations. fold mine. rewrite Htotal.
      rewrite offset_limit_nonneg by lia. simpl. rewrite Nat2Z.id.
      now rewrite firstn_all.
    + now rewrite Htotal.
Qed.

(** X9.  The total of the stats follows the user's writes: a successful
    create adds one, a successful delete takes one away, and an update,
    successful or not, leaves it as it was. *)
Theorem stats_total_follows_writes db (u : User.t) :
  let total db := count (owned_by (User.id u)) db in
  get "total_calculations" (get_calculation_stats db u) = Some (VInt (total db))
  /\ (forall calculation new_id now c db',
        create_calculation db u calculation new_id now = (Return c, db') ->
        total db' = total db + 1)
  /\ (forall cid db',
        delete_calculation db u cid = (Return tt, db') ->
        total db' = total db - 1)
  /\ (forall cid upd,
        total (snd (update_calculation db u cid upd)) = total db).
Proof.
  intros total. unfold total, count. repeat apply conj.
  - reflexivity.
  - intros calculation new_id now c db' Hcreate.
    destruct (create_calculation_returned _ _ _ _ _ _ _ Hcreate) as (-> & _ & Huid).
    rewrite filter_app, length_app. cbn [filter]. unfold owned_by at 2.
    rewrite Huid, str_eqb_refl. cbn [List.length]. lia.
  - intros cid db' Hdelete.
    destruct (delete_calculation_returned _ _ _ _ Hdelete) as (c0 & Hf & ->).
    clear Hdelete. unfold first in Hf.
    induction db as [|x rest IH]; cbn [find delete_first filter] in *; [discriminate|].
    destruct (is_calculation cid (User.id u) x) eqn:Hx.
    + rewrite (is_calculation_owned _ _ _ Hx). cbn [List.length]. lia.
    + specialize (IH Hf). cbn [filter].
      destruct (owned_by (User.id u) x); cbn [List.length]; lia.
  - intros cid upd.
    destruct (first (is_calculation cid (User.id u)) db) as [c0|] eqn:Hf.
    + rewrite (update_calculation_found _ _ _ _ _ Hf).
      destruct (Calculation.calculate (apply_update upd c0)) as [c'|e] eqn:Hcalc;
        [|reflexivity].
      simpl.
      assert (Hc' : owned_by (User.id u) c' = true).
      { apply (is_calculation_owned cid).
        eapply updated_is_calculation; [exact (first_holds _ _ _ Hf)|exact Hcalc]. }
      clear Hf Hcalc. induction db as [|x rest IH]; [reflexivity|].
      cbn [update_first filter]. destruct (is_calculation cid (User.id u) x) eqn:Hx.
      * cbn [filter]. now rewrite Hc', (is_calculation_owned _ _ _ Hx).
      * cbn [filter]. destruct (owned_by (User.id u) x); cbn [List.length]; lia.
    + unfold update_calculation. now rewrite Hf.
Qed.

End CalculationPages.

(** *** The calculation properties on the sample tables *)

Lemma create_then_get_witness :
  exists c db',
    @create_calculation Q Q_number sample_calculations carol
      {| base_operation := OperationType.subtract;
         base_operand1 := (7 # 1)%Q; base_operand2 := (2 # 1)%Q |} (lit "c-9") 70
    = (Return c, db')
    /\ @get_calculation Q db' carol (lit "c-9") = Return c
    /\ @get_calculation Q db' alice (lit "c-1")
       = @get_calculation Q sample_calculations alice (lit "c-1").
Proof.
  eexists. eexists. split; [reflexivity|].
  destruct (@create_then_get Q Q_number sample_calculations carol
              {| base_operation := OperationType.subtract;
                 base_operand1 := (7 # 1)%Q; base_operand2 := (2 # 1)%Q |}
              (lit "c-9") 70 _ _ eq_refl eq_refl) as [Hget Hframe].
  split; [exact Hget|]. apply Hframe. left. discriminate.
Defined.

Lemma sample_ids_unique : NoDup (map Calculation.id more_calculations).
Proof.
  repeat constructor; simpl; intuition discriminate.
Qed.

Lemma delete_then_get_witness :
  exists db',
    @delete_calculation Q more_calculations alice (lit "c-3") = (Return tt, db')
    /\ @get_calculation Q db' alice (lit "c-3") = Raise NotFound
    /\ @delete_calculation Q db' alice (lit "c-3") = (Raise NotFound, db')
    /\ S (List.length db') = List.length more_calculations.
Proof.
  eexists. split; [reflexivity|].
  destruct (@delete_then_get Q more_calculations alice (lit "c-3") _
              sample_ids_unique eq_refl) as (Hget & Hagain & Hlen & _).
  repeat split; assumption.
Defined.


Lemma update_division_by_zero_witness :
  @update_calculation Q Q_number more_calculations alice (lit "c-4") zero_divisor
  = (Raise DivisionByZero, more_calculations).
Proof.
  apply (@update_division_by_zero Q Q_number more_calculations alice (lit "c-4")
           zero_divisor calc4); reflexivity.
Defined.

Lemma update_idempotent_witness :
  exists c db',
    @update_calculation Q Q_number more_calculations alice (lit "c-4") to_subtract
    = (Return c, db')
    /\ @update_calculation Q Q_number db' alice (lit "c-4") to_subtract = (Return c, db').
Proof.
  eexists. eexists. split; [reflexivity|].
  apply (@update_idempotent Q Q_number more_calculations alice (lit "c-4") to_subtract).
  reflexivity.
Defined.

Lemma writes_invisible_to_other_users_witness :
  @same_view Q Q_number carol more_calculations
    (snd (@update_calculation Q Q_number more_calculations alice (lit "c-4") to_subtract))
  /\ @same_view Q Q_number carol more_calculations
       (snd (@delete_calculation Q more_calculations alice (lit "c-1"))).
Proof.
  destruct (@writes_invisible_to_other_users Q Q_number carol alice more_calculations
              {| base_operation := OperationType.add;
                 base_operand1 := (1 # 1)%Q; base_operand2 := (1 # 1)%Q |}
              (lit "c-9") 70 (lit "c-4") to_subtract) as (_ & Hupdate & _).
  { discriminate. }
  destruct (@writes_invisible_to_other_users Q Q_number carol alice more_calculations
              {| base_operation := OperationType.add;
                 base_operand1 := (1 # 1)%Q; base_operand2 := (1 # 1)%Q |}
              (lit "c-9") 70 (lit "c-1") to_subtract) as (_ & _ & Hdelete).
  { discriminate. }
  split; assumption.
Defined.

Lemma consecutive_pages_tile_witness :
  @list_calculations Q more_calculations alice 0 1 = Return [calc1]
  /\ @list_calculations Q more_calculations alice 1 2 = Return [calc3; calc4]
  /\ @list_calculations Q more_calculations alice 0 3 = Return [calc1; calc3; calc4].
Proof.
  destruct (@consecutive_pages_tile Q more_calculations alice 0 1 2)
    as [(page1 & page2 & H1 & H2 & H3) _]; try discriminate; try reflexivity.
  split; [reflexivity|]. split; [reflexivity|].
  transitivity (Return (page1 ++ page2)); [exact H3|].
  injection H1 as <-. injection H2 as <-. reflexivity.
Defined.

Lemma stats_total_follows_writes_witness :
  exists db',
    @delete_calculation Q more_calculations alice (lit "c-1") = (Return tt, db')
    /\ count (owned_by (User.id alice)) more_calculations = 3
    /\ count (owned_by (User.id alice)) db' = 2.
Proof.
  eexists. split; [reflexivity|]. split; [reflexivity|].
  destruct (@stats_total_follows_writes Q Q_number more_calculations alice)
    as (_ & _ & Hdel & _).
  rewrite (Hdel (lit "c-1") _ eq_refl). reflexivity.
Defined.

(** ** Authentication: what the routes write *)

Section AuthWrites.
Context `{Settings} `{CredentialHasher}.

Lemma verify_email_committed db token now :
  committed (verify_email db token now) = db
  \/ committed (verify_email db token now)
     = update_first (has_verification_token token) mark_verified db.
Proof.
  unfold verify_email.
  destruct (first (has_verification_token token) db) as [u|] eqn:Hf; [|now left].
  destruct (User.verify_email_token token now u) as [u'|] eqn:Hv; [|now left].
  right. simpl. unfold User.verify_email_token in Hv.
  destruct (negb _); [discriminate|]. destruct (User.past _ _); [discriminate|].
  injection Hv as <-. exact (update_first_found _ mark_verified _ _ Hf).
Qed.

Lemma resend_verification_committed db email token now :
  committed (resend_verification_email db email token now) = db
  \/ committed (resend_verification_email db email token now)
     = update_first (has_email email) (User.generate_verification_token token now) db.
Proof.
  unfold resend_verification_email.
  destruct (first (has_email email) db) as [u|] eqn:Hf; [|now left].
  destruct (User.is_verified u); [now left|]. right. simpl.
  exact (update_first_found _ (User.generate_verification_token token now) _ _ Hf).
Qed.

Lemma forgot_password_committed db email token now :
  committed (forgot_password db email token now) = db
  \/ committed (forgot_password db email token now)
     = update_first (has_email email) (User.generate_reset_token token now) db.
Proof.
  unfold forgot_password.
  destruct (first (has_email email) db) as [u|] eqn:Hf; [|now left].
  right. simpl.
  exact (update_first_found _ (User.generate_reset_token token now) _ _ Hf).
Qed.

Lemma reset_password_committed db token new_password now :
  committed (reset_password db token new_password now) = db
  \/ committed (reset_password db token new_password now)
     = update_first (has_reset_token token)
         (with_new_password (hash_password new_password)) db.
Proof.
  unfold reset_password.
  destruct (first (has_reset_token token) db) as [u|] eqn:Hf; [|now left].
  destruct (negb _); [now left|]. destruct (_ <? _); [now left|].
  right. simpl.
  exact (update_first_found _ (with_new_password (hash_password new_password)) _ _ Hf).
Qed.

Lemma In_update_first {A : Type} (p : A -> bool) (f : A -> A) (rows : list A) (x : A) :
  In x rows -> In x (update_first p f rows) \/ In (f x) (update_first p f rows).
Proof.
  induction rows as [|y rest IH]; simpl; [tauto|].
  intros [Heq|Hin]; destruct (p y); simpl; subst; auto.
  destruct (IH Hin); auto.
Qed.

Lemma same_columns {B : Type} (column : User.t -> B) p g db db' :
  db' = db \/ db' = update_first p g db ->
  (forall x, column (g x) = column x) ->
  Permutation (map column db') (map column db).
Proof.
  intros [->| ->] Hg; [reflexivity|].
  rewrite map_update_first; [reflexivity|]. intros x _. apply Hg.
Qed.

(** X10.  No authentication route adds or removes a user, or changes an
    id, a username, an email or an active flag: whatever the order of the
    rows, the accounts are the same.  A password hash changes only in
    [reset_password]; a verified flag changes only in [verify_email], and
    there a verified user stays verified. *)
Theorem auth_routes_keep_accounts db (email token new_password : str) (now : datetime) :
  let verified := committed (verify_email db token now) in
  let resent := committed (resend_verification_email db email token now) in
  let forgot := committed (forgot_password db email token now) in
  let reset := committed (reset_password db token new_password now) in
  let hash_of u := (User.id u, User.password u) in
  let flag_of u := (User.id u, User.is_verified u) in
  (Permutation (map identity verified) (map identity db)
   /\ Permutation (map identity resent) (map identity db)
   /\ Permutation (map identity forgot) (map identity db)
   /\ Permutation (map identity reset) (map identity db))
  /\ (Permutation (map hash_of verified) (map hash_of db)
      /\ Permutation (map hash_of resent) (map hash_of db)
      /\ Permutation (map hash_of forgot) (map hash_of db))
  /\ (Permutation (map flag_of resent) (map flag_of db)
      /\ Permutation (map flag_of forgot) (map flag_of db)
      /\ Permutation (map flag_of reset) (map flag_of db))
  /\ (forall u, In u db -> User.is_verified u = true ->
        exists u', In u' verified
                   /\ identity u' = identity u
                   /\ User.is_verified u' = true).
Proof.
  intros verified resent forgot reset hash_of flag_of.
  pose proof (verify_email_committed db token now) as Hv.
  pose proof (resend_verification_committed db email token now) as Hr.
  pose proof (forgot_password_committed db email token now) as Hf.
  pose proof (reset_password_committed db token new_password now) as Hp.
  fold verified in Hv. fold resent in Hr. fold forgot in Hf. fold reset in Hp.
  repeat apply conj;
    try (eapply same_columns; [eassumption|intros; reflexivity]).
  intros u Hin Hu. destruct Hv as [->| ->].
  - exists u. auto.
  - destruct (In_update_first (has_verification_token token) mark_verified db u Hin)
      as [Hkept|Hmarked].
    + exists u. auto.
    + exists (mark_verified u). auto.
Qed.

End AuthWrites.

(** ** Authentication: how the routes compose *)

Section QueryComposeFacts.
Context {A : Type}.
Implicit Types (p q : A -> bool) (f g : A -> A) (rows : list A).

Lemma update_first_compose p f g rows :
  (forall x, p x = true -> p (f x) = true) ->
  update_first p g (update_first p f rows)
  = update_first p (fun x => g (f x)) rows.
Proof.
  intros Hp. induction rows as [|x rest IH]; simpl; [reflexivity|].
  destruct (p x) eqn:Hpx; simpl.
  - now rewrite (Hp x Hpx).
  - now rewrite Hpx, IH.
Qed.

End QueryComposeFacts.

Section AuthCompose.
Context `{Settings} `{CredentialHasher}.

(** X11.  [login] returns tokens only for the first user who bears the
    name as username or email, and only if the stored hash verifies the
    password and the user is verified and active. *)
Theorem login_success_sound db (username password : str) (now : datetime)
  (r : TokenResponse) :
  login db username password now = Return r ->
  first (User.named username) db = Some (user r)
  /\ verify_password password (User.password (user r)) = true
  /\ User.is_verified (user r) = true
  /\ User.is_active (user r) = true.
Proof.
  unfold login.
  destruct (User.authenticate db username password now) as [a|] eqn:Hauth;
    [|discriminate].
  destruct (authenticate_user _ _ _ _ _ Hauth) as [Hnamed Hpw].
  simpl. destruct (User.is_verified (User.user a)) eqn:Hv; simpl; [|discriminate].
  destruct (User.is_active (User.user a)) eqn:Ha; simpl; [|discriminate].
  intros [= <-]. simpl. auto.
Qed.



(** X13.  Only the latest reset link works.  When [forgot_password] is
    requested twice for an account, with two different tokens that no user
    held, [reset_password] with the first token raises 400 "Invalid reset
    token", while the second token, up to its expiry, resets the
    password. *)
Theorem latest_reset_token_supersedes db (email token1 token2 : str)
  (now1 now2 : datetime) (u : User.t) :
  first (has_email email) db = Some u ->
  (forall x, In x db -> has_reset_token token1 x = false) ->
  (forall x, In x db -> has_reset_token token2 x = false) ->
  token1 <> token2 ->
  let db1 := committed (forgot_password db email token1 now1) in
  let db2 := committed (forgot_password db1 email token2 now2) in
  (forall new_password now,
     response (reset_password db2 token1 new_password now)
     = Raise (HTTPException HTTP_400_BAD_REQUEST (lit "Invalid reset token") []))
  /\ (forall new_password now,
        6 <= len new_password -> now <= now2 + timedelta_hours 1 ->
        response (reset_password db2 token2 new_password now)
        = Return [("message", VStr (lit "Password reset successfully. You can now log in with your new password."))]).
Proof.
  intros Hemail Hfresh1 Hfresh2 Hne db1 db2.
  set (u1 := User.generate_reset_token token1 now1 u).
  set (u2 := User.generate_reset_token token2 now2 u1).
  assert (Hdb1 : db1 = update_first (has_email email) (fun _ => u1) db).
  { unfold db1, forgot_password. now rewrite Hemail. }
  assert (Hemail1 : first (has_email email) db1 = Some u1).
  { rewrite Hdb1. apply (first_update_same _ (fun _ => u1) db u Hemail).
    exact (first_holds _ _ _ Hemail). }
  assert (Hdb2 : db2 = update_first (has_email email) (fun _ => u2) db).
  { unfold db2, forgot_password. rewrite Hemail1. simpl. fold u2. rewrite Hdb1.
    apply (update_first_compose _ (fun _ => u1) (fun _ => u2)).
    intros _ _. exact (first_holds _ _ _ Hemail). }
  split.
  - intros new_password now. unfold reset_password.
    rewrite first_absent; [reflexivity|]. rewrite Hdb2.
    apply (absent_update_first _ _ (fun _ => u2) db u Hemail Hfresh1).
    unfold has_reset_token, u2. simpl. apply str_eqb_neq. congruence.
  - intros new_password now Hlen Hclock. unfold reset_password.
    assert (Hfound : first (has_reset_token token2) db2 = Some u2).
    { rewrite Hdb2.
      apply (first_update_fresh _ _ (fun _ => u2) db u Hemail Hfresh2).
      unfold has_reset_token, u2. simpl. apply str_eqb_refl. }
    rewrite Hfound.
    assert (Hvalid : User.verify_reset_token token2 now u2 = true).
    { unfold User.verify_reset_token, u2. simpl. rewrite str_eqb_refl. simpl.
      apply negb_true_iff, Z.ltb_ge. exact Hclock. }
    rewrite Hvalid. simpl. now rewrite (proj2 (Z.ltb_ge _ _) Hlen).
Qed.

Lemma same_session_refl (a : completion TokenResponse) : same_session a a.
Proof. destruct a; simpl; auto 10. Qed.

Lemma login_unchanged_by_rewrite db (p : User.t -> bool) (g : User.t -> User.t)
  (username password : str) (now : datetime) :
  (forall x, identity (g x) = identity x) ->
  (forall x, User.password (g x) = User.password x) ->
  (forall x, User.is_verified (g x) = User.is_verified x) ->
  same_session (login db username password now)
    (login (update_first p g db) username password now).
Proof.
  intros Hid Hpw Hv.
  assert (Hnamed : forall x, User.named username (g x) = User.named username x).
  { intros x. specialize (Hid x). unfold identity in Hid.
    injection Hid as _ Hu He _. unfold User.named. now rewrite Hu, He. }
  pose proof (first_update_preserved p (User.named username) g db Hnamed) as Hfirst.
  unfold login, User.authenticate.
  destruct (first (User.named username) db) as [r|];
    destruct (first (User.named username) (update_first p g db)) as [r'|];
    try contradiction; [|reflexivity].
  assert (Hr : identity r' = identity r /\ User.password r' = User.password r
               /\ User.is_verified r' = User.is_verified r).
  { destruct Hfirst as [->| ->]; auto. }
  destruct Hr as (Hi & Hp & Hvr). rewrite Hp.
  pose proof Hi as Hi'. unfold identity in Hi'. injection Hi' as Hi1 _ _ Hi4.
  destruct (verify_password password (User.password r)); simpl; [|reflexivity].
  rewrite Hvr, Hi4.
  destruct (User.is_verified r); simpl; [|reflexivity].
  destruct (User.is_active r); simpl; [|reflexivity].
  rewrite Hi1, Hi, Hp. auto 10.
Qed.

Lemma first_hd_filter {A : Type} (q : A -> bool) (rows : list A) :
  first q rows = hd_error (filter q rows).
Proof.
  unfold first. induction rows as [|x rest IH]; simpl; [reflexivity|].
  destruct (q x); [reflexivity|exact IH].
Qed.

Lemma Permutation_filter_same {A : Type} (q : A -> bool) (rows rows' : list A) :
  Permutation rows rows' -> Permutation (filter q rows) (filter q rows').
Proof.
  induction 1 as [|x l l' _ IH|x y l|l l' l'' _ IH1 _ IH2]; simpl.
  - constructor.
  - destruct (q x); [now constructor|exact IH].
  - destruct (q x), (q y); try reflexivity. apply perm_swap.
  - now transitivity (filter q l').
Qed.

Lemma length_filter_update_first {A : Type} (p q : A -> bool) (g : A -> A)
  (rows : list A) :
  (forall x, q (g x) = q x) ->
  List.length (filter q (update_first p g rows)) = List.length (filter q rows).
Proof.
  intros Hq. induction rows as [|x rest IH]; simpl; [reflexivity|].
  destruct (p x); simpl.
  - rewrite Hq. destruct (q x); reflexivity.
  - destruct (q x); simpl; now rewrite IH.
Qed.

(** A query that at most one row satisfies finds the same row in whatever
    order the rows come. *)
Lemma first_any_order {A : Type} (q : A -> bool) (rows rows' : list A) :
  (List.length (filter q rows) <= 1)%nat ->
  Permutation rows' rows ->
  first q rows' = first q rows.
Proof.
  intros Hone Hperm. rewrite !first_hd_filter.
  apply (Permutation_filter_same q) in Hperm. symmetry in Hperm.
  destruct (filter q rows) as [|x [|y rest]] eqn:E.
  - now rewrite (Permutation_nil Hperm).
  - now rewrite (Permutation_length_1_inv Hperm).
  - simpl in Hone. lia.
Qed.

Lemma login_any_order db db' (username password : str) (now : datetime) :
  first (User.named username) db' = first (User.named username) db ->
  login db' username password now = login db username password now.
Proof. intros Hfirst. unfold login, User.authenticate. now rewrite Hfirst. Qed.

Lemma login_unchanged_in_any_order db db' (p : User.t -> bool) (g : User.t -> User.t)
  (username password : str) (now : datetime) :
  (forall x, identity (g x) = identity x) ->
  (forall x, User.password (g x) = User.password x) ->
  (forall x, User.is_verified (g x) = User.is_verified x) ->
  (List.length (filter (User.named username) db) <= 1)%nat ->
  Permutation db' (update_first p g db) ->
  same_session (login db username password now) (login db' username password now).
Proof.
  intros Hid Hpw Hv Hone Hperm.
  assert (Hnamed : forall x, User.named username (g x) = User.named username x).
  { intros x. specialize (Hid x). unfold identity in Hid.
    injection Hid as _ Hu He _. unfold User.named. now rewrite Hu, He. }
  assert (Hone' : (List.length (filter (User.named username) (update_first p g db)) <= 1)%nat)
    by now rewrite length_filter_update_first.
  rewrite (login_any_order _ _ _ _ _ (first_any_order _ _ _ Hone' Hperm)).
  now apply login_unchanged_by_rewrite.
Qed.

(** X14.  Asking for a password reset or for a new verification mail locks
    nobody out and lets nobody in.  For a name that at most one account
    bears as username or email, and in whatever order the store returns
    the rows after the request, [login] under that name is answered as it
    was before: with the same exception or with the same tokens for the
    same account. *)
Theorem reset_requests_leave_login_alone db (email token : str) (now : datetime)
  (username password : str) (now' : datetime) :
  (List.length (filter (User.named username) db) <= 1)%nat ->
  (forall db',
     Permutation db' (committed (forgot_password db email token now)) ->
     same_session (login db username password now')
       (login db' username password now'))
  /\ (forall db',
        Permutation db' (committed (resend_verification_email db email token now)) ->
        same_session (login db username password now')
          (login db' username password now')).
Proof.
  intros Hone. split; intros db' Hperm.
  - destruct (forgot_password_committed db email token now) as [Hc|Hc];
      rewrite Hc in Hperm.
    + rewrite (login_any_order _ _ _ _ _ (first_any_order _ _ _ Hone Hperm)).
      apply same_session_refl.
    + eapply login_unchanged_in_any_order; [| | |exact Hone|exact Hperm];
        intros; reflexivity.
  - destruct (resend_verification_committed db email token now) as [Hc|Hc];
      rewrite Hc in Hperm.
    + rewrite (login_any_order _ _ _ _ _ (first_any_order _ _ _ Hone Hperm)).
      apply same_session_refl.
    + eapply login_unchanged_in_any_order; [| | |exact Hone|exact Hperm];
        intros; reflexivity.
Qed.

End AuthCompose.

(** ** Mailed links *)

(** X15.  A mailed link is the base URL, a fixed path and the token:
    dropping the base URL and the path gives the token back, so that for
    one base URL different tokens give different links. *)
Theorem links_carry_token (base_url token : str) :
  skipn (List.length base_url + List.length (lit "/api/auth/verify-email?token="))
    (verification_link base_url token) = token
  /\ skipn (List.length base_url + List.length (lit "/reset-password?token="))
       (reset_link base_url token) = token
  /\ firstn (List.length base_url) (verification_link base_url token) = base_url
  /\ firstn (List.length base_url) (reset_link base_url token) = base_url
  /\ (forall token', verification_link base_url token = verification_link base_url token' ->
        token = token')
  /\ (forall token', reset_link base_url token = reset_link base_url token' ->
        token = token').
Proof.
  unfold verification_link, reset_link. repeat apply conj.
  - rewrite skipn_add, skipn_app, skipn_all, Nat.sub_diag. reflexivity.
  - rewrite skipn_add, skipn_app, skipn_all, Nat.sub_diag. reflexivity.
  - rewrite firstn_app, Nat.sub_diag, firstn_all. simpl. apply app_nil_r.
  - rewrite firstn_app, Nat.sub_diag, firstn_all. simpl. apply app_nil_r.
  - intros token' Heq. apply app_inv_head in Heq. now apply app_inv_head in Heq.
  - intros token' Heq. apply app_inv_head in Heq. now apply app_inv_head in Heq.
Qed.

Lemma links_carry_token_witness :
  verification_link (lit "http://localhost:8000") (lit "vt-carol")
  = lit "http://localhost:8000/api/auth/verify-email?token=vt-carol"
  /\ (verification_link (lit "http://localhost:8000") (lit "vt-carol")
      = verification_link (lit "http://localhost:8000") (lit "vt-carol") ->
      lit "vt-carol" = lit "vt-carol").
Proof.
  split; [reflexivity|].
  destruct (links_carry_token (lit "http://localhost:8000") (lit "vt-carol"))
    as (_ & _ & _ & _ & Hinj & _).
  apply Hinj.
Defined.

(** *** The authentication properties on the sample tables *)

Lemma login_success_sound_witness :
  exists r,
    @login default_settings marker_hasher more_users (lit "dave@example.com")
      (lit "oldsecret") 10 = Return r
    /\ user r = dave
    /\ User.is_verified (user r) = true
    /\ User.is_active (user r) = true.
Proof.
  eexists. split; [reflexivity|]. split; [reflexivity|].
  destruct (@login_success_sound default_settings marker_hasher more_users
              (lit "dave@example.com") (lit "oldsecret") 10 _ eq_refl)
    as (_ & _ & Hv & Ha).
  split; assumption.
Defined.


Lemma latest_reset_token_supersedes_witness :
  let db1 :=
    committed (@forgot_password default_settings sample_users
                 (lit "alice@example.com") (lit "rt-1") 100) in
  let db2 :=
    committed (@forgot_password default_settings db1
                 (lit "alice@example.com") (lit "rt-2") 150) in
  response (@reset_password marker_hasher db2 (lit "rt-1") (lit "looking-glass") 200)
  = Raise (HTTPException HTTP_400_BAD_REQUEST (lit "Invalid reset token") [])
  /\ response (@reset_password marker_hasher db2 (lit "rt-2") (lit "looking-glass") 200)
     = Return [("message", VStr (lit "Password reset successfully. You can now log in with your new password."))].
Proof.
  intros db1 db2.
  assert (Hfresh1 : forall x, In x sample_users -> has_reset_token (lit "rt-1") x = false).
  { intros x [<-|[<-|[<-|[]]]]; reflexivity. }
  assert (Hfresh2 : forall x, In x sample_users -> has_reset_token (lit "rt-2") x = false).
  { intros x [<-|[<-|[<-|[]]]]; reflexivity. }
  assert (Hne : lit "rt-1" <> lit "rt-2") by discriminate.
  destruct (@latest_reset_token_supersedes default_settings marker_hasher
              sample_users (lit "alice@example.com") (lit "rt-1") (lit "rt-2")
              100 150 alice eq_refl Hfresh1 Hfresh2 Hne) as [Hold Hnew].
  split.
  - apply Hold.
  - apply Hnew; vm_compute; discriminate.
Defined.

(** ** Calculations: stored results stay derived *)

Section ForallFacts.
Context {A : Type}.
Implicit Types (P : A -> Prop) (p : A -> bool) (f : A -> A) (rows : list A).

Lemma Forall_update_first P p f rows :
  (forall x, p x = true -> P (f x)) ->
  Forall P rows -> Forall P (update_first p f rows).
Proof.
  intros Hf Hall. induction Hall as [|x rest Hx Hrest IH]; simpl; [constructor|].
  destruct (p x) eqn:Hpx; constructor; auto.
Qed.

Lemma Forall_delete_first P p rows :
  Forall P rows -> Forall P (delete_first p rows).
Proof.
  intros Hall. induction Hall as [|x rest Hx Hrest IH]; simpl; [constructor|].
  destruct (p x); [assumption|]. constructor; auto.
Qed.

End ForallFacts.

Section ConsistencyInvariant.
Context {num : Type} `{Number num}.
Implicit Types (db : list (Calculation.t num)) (c : Calculation.t num).

Lemma calculate_consistent c c' :
  Calculation.calculate c = Return c' -> consistent c'.
Proof.
  intros Hcalc. apply calculate_returns in Hcalc. destruct Hcalc as (v & Hv & ->).
  exists v. simpl. auto.
Qed.

(** X16.  On a table in which every record's result is [f] of its
    operation and operands, every write keeps it so: whatever
    [create_calculation], [update_calculation] or [delete_calculation] is
    asked, by whomever and with whatever outcome, every record of the
    table it leaves has its result equal to [f] of its operation and
    operands. *)
Theorem writes_keep_results_derived db (u : User.t) calculation new_id now cid upd :
  Forall consistent db ->
  Forall consistent (snd (create_calculation db u calculation new_id now))
  /\ Forall consistent (snd (update_calculation db u cid upd))
  /\ Forall consistent (snd (delete_calculation db u cid)).
Proof.
  intros Hall. repeat apply conj.
  - unfold create_calculation.
    destruct (Calculation.calculate _) as [c'|e] eqn:Hcalc; [|exact Hall].
    simpl. apply Forall_app. split; [exact Hall|].
    constructor; [|constructor]. exact (calculate_consistent _ _ Hcalc).
  - destruct (first (is_calculation cid (User.id u)) db) as [c0|] eqn:Hf.
    + rewrite (update_calculation_found _ _ _ _ _ Hf).
      destruct (Calculation.calculate (apply_update upd c0)) as [c'|e] eqn:Hcalc;
        [|exact Hall].
      simpl. apply Forall_update_first; [|exact Hall].
      intros _ _. exact (calculate_consistent _ _ Hcalc).
    + unfold update_calculation. now rewrite Hf.
  - unfold delete_calculation.
    destruct (first (is_calculation cid (User.id u)) db); [|exact Hall].
    simpl. now apply Forall_delete_first.
Qed.

End ConsistencyInvariant.

Lemma writes_keep_results_derived_witness :
  Forall (@consistent Q Q_number) [calc1; calc4]
  /\ Forall (@consistent Q Q_number)
       (snd (@update_calculation Q Q_number [calc1; calc4] alice (lit "c-4") to_subtract))
  /\ Forall (@consistent Q Q_number)
       (snd (@delete_calculation Q [calc1; calc4] alice (lit "c-1"))).
Proof.
  assert (Hall : Forall (@consistent Q Q_number) [calc1; calc4]).
  { repeat constructor; eexists; split; reflexivity. }
  split; [exact Hall|].
  destruct (@writes_keep_results_derived Q Q_number [calc1; calc4] alice
              {| base_operation := OperationType.add;
                 base_operand1 := (1 # 1)%Q; base_operand2 := (1 # 1)%Q |}
              (lit "c-9") 70 (lit "c-4") to_subtract Hall) as (_ & Hupdate & _).
  destruct (@writes_keep_results_derived Q Q_number [calc1; calc4] alice
              {| base_operation := OperationType.add;
                 base_operand1 := (1 # 1)%Q; base_operand2 := (1 # 1)%Q |}
              (lit "c-9") 70 (lit "c-1") to_subtract Hall) as (_ & _ & Hdelete).
  split; assumption.
Defined.

(** *** The account properties on the sample tables *)

Lemma auth_routes_keep_accounts_witness :
  exists u',
    In u' (committed (verify_email sample_users (lit "vt-carol") 20))
    /\ identity u' = identity alice
    /\ User.is_verified u' = true.
Proof.
  destruct (@auth_routes_keep_accounts default_settings marker_hasher sample_users
              (lit "carol@example.com") (lit "vt-carol") (lit "looking-glass") 20)
    as (_ & _ & _ & Hverified).
  apply (Hverified alice); [left; reflexivity|reflexivity].
Defined.

Lemma reset_requests_leave_login_alone_witness :
  same_session
    (@login default_settings marker_hasher sample_users (lit "alice") (lit "wonderland") 10)
    (@login default_settings marker_hasher
       (rev (committed (@forgot_password default_settings sample_users
                          (lit "alice@example.com") (lit "rt-9") 5)))
       (lit "alice") (lit "wonderland") 10).
Proof.
  destruct (@reset_requests_leave_login_alone default_settings marker_hasher
              sample_users (lit "alice@example.com") (lit "rt-9") 5
              (lit "alice") (lit "wonderland") 10) as [Hforgot _].
  { apply le_n. }
  apply Hforgot. symmetry. apply Permutation_rev.
Defined.
